(** * github_replicator: the rewrite step and the tree replicator

    A shallow embedding of [October_2025/github_replicator.py].

    - Part 1 models Python's [str.replace] and the content rewrite
      [update_content_references] with its table [replacements].
    - Part 2 models the remote store client ([get_folder_contents],
      [get_file_content], [create_file]) over an abstract remote store and
      the recursive walk [replicate_folder], which logs every client call
      and every printed line of an invocation.
    - Part 3 models the constructor, [main] with its [try] and [except],
      and [debug_repository].

    Python [str] values are modelled by [string], one character for one
    code point, so the texts of the model are those whose code points are
    below 256; HTTP status codes by [Z]; the counters of a level by [nat].
    A computation ends in a value or in an exception: the [ValueError] of
    the constructor and the exceptions of line 88, where the answer to a
    fetch is read, are in the model, and [main] catches them. *)

From Stdlib Require Import String Ascii List ZArith Lia Bool Arith.
Import ListNotations.

Open Scope list_scope.
Open Scope string_scope.

(* ================================================================= *)
(** ** Part 1: strings, [str.replace] and the rewrite step *)

Module PyStr.

(** [s[n:]] *)
Fixpoint drop (n : nat) (s : string) : string :=
  match n, s with
  | O, _ => s
  | S _, EmptyString => EmptyString
  | S n', String _ s' => drop n' s'
  end.

(** [pat in s] *)
Fixpoint contains (pat s : string) : bool :=
  prefix pat s ||
  match s with
  | EmptyString => false
  | String _ s' => contains pat s'
  end.

(** [s.replace("", new)]: [new] is put before every character and at the
    end.  Python puts it between code points: on a [string] that held the
    UTF-8 bytes of a text with code points above 255, this definition would
    put it between the bytes.  Only an empty source folder reaches it. *)
Fixpoint interleave (new s : string) : string :=
  match s with
  | EmptyString => new
  | String c s' => new ++ String c (interleave new s')
  end.

(** [s.replace(old, new)] for a non-empty [old], scanning left to right.
    [skip] is the number of characters of a match that are still to be
    passed over; at [skip = 0] the scan looks for [old] at the current
    position, emits [new] for a match and the current character
    otherwise. *)
Fixpoint replace_from (old new : string) (skip : nat) (s : string) : string :=
  match s with
  | EmptyString => EmptyString
  | String c s' =>
      match skip with
      | S k => replace_from old new k s'
      | O =>
          if prefix old s
          then new ++ replace_from old new (String.length old - 1) s'
          else String c (replace_from old new 0 s')
      end
  end.

(** [s.replace(old, new)]: every non-overlapping occurrence of [old],
    leftmost first. *)
Definition replace (s old new : string) : string :=
  match old with
  | EmptyString => interleave new s
  | String _ _ => replace_from old new 0 s
  end.

End PyStr.

Import PyStr.

(** The dict literal of [update_content_references], in insertion order
    (the order in which [replacements.items()] yields its pairs). *)
Definition replacements : list (string * string) :=
  [ ("Nav_Oct_2025", "Nav_Oct_2025");
    ("October_2025", "October_2025");
    ("October", "October");
    ("october", "october");
    ("Oct", "Oct");
    ("oct", "oct");
    ("2025-10", "2025-10");
    ("10/2025", "10/2025") ].

(** The loop [for old, new in table: updated = updated.replace(old, new)]. *)
Definition apply_replacements (table : list (string * string))
    (content : string) : string :=
  fold_left (fun updated_content p => replace updated_content (fst p) (snd p))
            table content.

Definition update_content_references (content : string) : string :=
  apply_replacements replacements content.

(** The proviso of the idempotence property: no replacement value contains
    a find-pattern that stands earlier in the table. *)
Fixpoint no_earlier_pattern (earlier : list string)
    (table : list (string * string)) : bool :=
  match table with
  | [] => true
  | (old, new) :: rest =>
      forallb (fun pat => negb (contains pat new)) earlier
      && no_earlier_pattern (earlier ++ [old])%list rest
  end.

(* ================================================================= *)
(** ** Part 2: the remote store client and the tree replicator *)

(** An entry of a directory listing: [item['name']], [item['path']] and
    [item['type']] (["file"], ["dir"], or another kind such as
    ["symlink"]). *)
Record entry : Type := {
  item_name : string;
  item_path : string;
  item_type : string
}.

(** The lines the replicator prints. *)
Inductive line : Type :=
| StartingReplication (source_folder target_folder : string)
| ErrorFetching (path : string) (status_code : Z)
| PathNotFound (path : string)
| ErrorFetchingFile (path : string) (status_code : Z)
| Created (path : string)
| ErrorCreating (path : string) (status_code : Z)
| NoContentsFound (source_folder : string)
| ProcessingFile (source_path : string)
| ProcessingDirectory (path : string)
| Completed (success_count total_count : nat).

#[local] Set Warnings "-register-all".

(** What one invocation of [replicate_folder] does, in order: the calls of
    the client's methods, each recorded with its result when it returns,
    the printed lines, and the nested invocations with their own log.
    [FetchRaised] is a call of [get_file_content] that has raised, with the
    message of the exception. *)
Inductive call : Type :=
| GetFolderContents (path : string) (result : list entry)
| GetFileContent (path : string) (content sha : string)
| CreateFile (path content message : string) (result : bool)
| Print (l : line)
| ReplicateFolder (source_folder target_folder : string) (body : list call)
| FetchRaised (path : string) (message : string).

(** The body of a 200 answer to the request for a file, as line 88 reads
    it: the text and the sha when the JSON holds a base64 content that
    decodes as UTF-8, and otherwise the message of the exception the
    reading raises ([KeyError], [binascii.Error], [UnicodeDecodeError]). *)
Inductive payload : Type :=
| Text (content sha : string)
| Undecodable (message : string).

(** How a computation ends: with a value, or with an exception, of which
    the message is kept. *)
Inductive outcome (A : Type) : Type :=
| Returned (a : A)
| Raised (message : string).

Arguments Returned {A} a.
Arguments Raised {A} message.

(** [success_count] and [total_count], the local variables of one
    invocation. *)
Record counters : Type := {
  success_count : nat;
  total_count : nat
}.

Definition incr_total (c : counters) : counters :=
  {| success_count := success_count c; total_count := S (total_count c) |}.

Definition incr_success (c : counters) : counters :=
  {| success_count := S (success_count c); total_count := total_count c |}.

(** [if content:] *)
Definition nonempty (s : string) : bool :=
  match s with
  | EmptyString => false
  | String _ _ => true
  end.

(** The commit message of [replicate_folder]. *)
Definition commit_message (source_folder target_folder : string) : string :=
  "chore: replicate " ++ source_folder ++ " structure for " ++ target_folder.

Definition is_file (e : entry) : bool := (item_type e =? "file")%string.
Definition is_dir (e : entry) : bool := (item_type e =? "dir")%string.

(** Selectors on the calls of a level; a nested invocation counts as one
    call of the level, whatever its body holds. *)
Definition is_listing (c : call) : bool :=
  match c with GetFolderContents _ _ => true | _ => false end.
Definition is_fetch (c : call) : bool :=
  match c with
  | GetFileContent _ _ _ | FetchRaised _ _ => true
  | _ => false
  end.
Definition is_empty_fetch (c : call) : bool :=
  match c with
  | GetFileContent _ content _ => negb (nonempty content)
  | _ => false
  end.
Definition is_create (c : call) : bool :=
  match c with CreateFile _ _ _ _ => true | _ => false end.
Definition is_created (c : call) : bool :=
  match c with CreateFile _ _ _ result => result | _ => false end.
Definition is_invocation (c : call) : bool :=
  match c with ReplicateFolder _ _ _ => true | _ => false end.

Definition count {A : Type} (p : A -> bool) (l : list A) : nat :=
  List.length (filter p l).

(** The sources and targets of the nested invocations of a level. *)
Definition invoked (log : list call) : list (string * string) :=
  flat_map (fun c => match c with
                     | ReplicateFolder s d _ => [(s, d)]
                     | _ => []
                     end) log.

(** What a level has done after the entries [contents], from counters [c]
    to counters [c'] with the calls [log]. *)
Definition level_tally (contents : list entry) (c c' : counters)
    (log : list call) : Prop :=
  count is_fetch log = count is_file contents /\
  count is_create log + count is_empty_fetch log = count is_file contents /\
  count is_invocation log = count is_dir contents /\
  count is_listing log = 0 /\
  total_count c' = total_count c + List.length contents /\
  success_count c' = success_count c + count is_created log.

Section Replicator.

(** The remote store: its state, and its answers to the three requests of
    the client.  An answer carries the status code of the response and the
    payload: the entries of the JSON array for a directory, and the
    payload of a file, which the client may fail to read.  A request may
    change the store.  Every request is answered, and the answer to the
    request for a directory is a JSON array of entries: a failure of the
    transport is outside the model. *)
Variable World : Type.
Variable remote_list : string -> World -> Z * list entry * World.
Variable remote_get : string -> World -> Z * payload * World.
Variable remote_put : string -> string -> string -> World -> Z * World.

(** Computations of the replicator: they read and change the remote store
    and log their calls, and end with a value or with an exception;
    [None] stands for a walk that has not ended within the given recursion
    depth. *)
Definition M (A : Type) : Type :=
  World -> option (outcome A * World * list call).

Definition prepend {A : Type} (l : list call)
    (r : option (outcome A * World * list call))
    : option (outcome A * World * list call) :=
  match r with
  | Some (a, w, l') => Some (a, w, (l ++ l')%list)
  | None => None
  end.

Definition ret {A : Type} (a : A) : M A :=
  fun w => Some (Returned a, w, []).

(** [raise]: nothing of what follows is run. *)
Definition raise {A : Type} (message : string) : M A :=
  fun w => Some (Raised message, w, []).

Definition bind {A B : Type} (m : M A) (f : A -> M B) : M B :=
  fun w =>
    match m w with
    | Some (Returned a, w1, l1) => prepend l1 (f a w1)
    | Some (Raised message, w1, l1) => Some (Raised message, w1, l1)
    | None => None
    end.

Notation "x <- m ;; k" := (bind m (fun x => k))
  (at level 61, m at next level, right associativity).
Notation "m ;; k" := (bind m (fun _ => k))
  (at level 61, right associativity).

Definition emit (c : call) : M unit := fun w => Some (Returned tt, w, [c]).
Definition print (l : line) : M unit := emit (Print l).

Definition request_list (path : string) : M (Z * list entry) :=
  fun w => let '(r, w') := remote_list path w in Some (Returned r, w', []).
Definition request_get (path : string) : M (Z * payload) :=
  fun w => let '(r, w') := remote_get path w in Some (Returned r, w', []).
Definition request_put (path content message : string) : M Z :=
  fun w =>
    let '(r, w') := remote_put path content message w in
    Some (Returned r, w', []).

(** [self.replicate_folder(s, d)] as a call of the enclosing level: the
    log of the nested invocation becomes one [ReplicateFolder] node,
    whether the invocation returns or raises. *)
Definition invoke (rec : string -> string -> M unit)
    (source_folder target_folder : string) : M unit :=
  fun w =>
    match rec source_folder target_folder w with
    | Some (Returned _, w', body) =>
        Some (Returned tt, w',
              [ReplicateFolder source_folder target_folder body])
    | Some (Raised message, w', body) =>
        Some (Raised message, w',
              [ReplicateFolder source_folder target_folder body])
    | None => None
    end.

Definition get_folder_contents (path : string) : M (list entry) :=
  result <- (response <- request_list path ;;
             if (fst response =? 200)%Z
             then ret (snd response)
             else
               print (ErrorFetching path (fst response)) ;;
               (if (fst response =? 404)%Z
                then print (PathNotFound path) else ret tt) ;;
               ret []) ;;
  emit (GetFolderContents path result) ;;
  ret result.

Definition get_file_content (path : string) : M (string * string) :=
  result <- (response <- request_get path ;;
             if (fst response =? 200)%Z
             then
               match snd response with
               | Text content sha => ret (content, sha)
               | Undecodable message =>
                   emit (FetchRaised path message) ;;
                   raise message
               end
             else
               print (ErrorFetchingFile path (fst response)) ;;
               ret ("", "")) ;;
  emit (GetFileContent path (fst result) (snd result)) ;;
  ret result.

Definition create_file (path content message : string) : M bool :=
  result <- (status_code <- request_put path content message ;;
             if (status_code =? 201)%Z
             then print (Created path) ;; ret true
             else print (ErrorCreating path status_code) ;; ret false) ;;
  emit (CreateFile path content message result) ;;
  ret result.

(** The body of [for item in contents], for one [item]. *)
Definition loop_body (rec : string -> string -> M unit)
    (source_folder target_folder : string) (item : entry) (c : counters)
    : M counters :=
  let c := incr_total c in
  if is_file item then
    let source_path := item_path item in
    let target_path := replace source_path source_folder target_folder in
    print (ProcessingFile source_path) ;;
    fetched <- get_file_content source_path ;;
    if nonempty (fst fetched) then
      let updated_content := update_content_references (fst fetched) in
      created <- create_file target_path updated_content
                   (commit_message source_folder target_folder) ;;
      if created then ret (incr_success c) else ret c
    else ret c
  else if is_dir item then
    print (ProcessingDirectory (item_path item)) ;;
    invoke rec (item_path item)
      (replace (item_path item) source_folder target_folder) ;;
    ret c
  else ret c.

Fixpoint for_items (rec : string -> string -> M unit)
    (source_folder target_folder : string) (contents : list entry)
    (c : counters) : M counters :=
  match contents with
  | [] => ret c
  | item :: rest =>
      c' <- loop_body rec source_folder target_folder item c ;;
      for_items rec source_folder target_folder rest c'
  end.

(** [replicate_folder]; [depth] bounds the nesting of the recursion. *)
Fixpoint replicate_folder (depth : nat) (source_folder target_folder : string)
    : M unit :=
  match depth with
  | O => fun _ => None
  | S depth' =>
      print (StartingReplication source_folder target_folder) ;;
      contents <- get_folder_contents source_folder ;;
      match contents with
      | [] => print (NoContentsFound source_folder)
      | _ :: _ =>
          c <- for_items (replicate_folder depth') source_folder target_folder
                 contents {| success_count := 0; total_count := 0 |} ;;
          print (Completed (success_count c) (total_count c))
      end
  end.

End Replicator.

Arguments M World A : clear implicits.
Arguments prepend {World A} l r.
Arguments ret {World A} a _.
Arguments raise {World A} message _.
Arguments bind {World A B} m f _.
Arguments emit {World} c _.
Arguments print {World} l _.
Arguments invoke {World} rec source_folder target_folder _.
Arguments get_folder_contents {World} remote_list path _.
Arguments get_file_content {World} remote_get path _.
Arguments create_file {World} remote_put path content message _.
Arguments loop_body {World} remote_get remote_put rec
  source_folder target_folder item c _.
Arguments for_items {World} remote_get remote_put rec
  source_folder target_folder contents c _.
Arguments replicate_folder {World} remote_list remote_get remote_put
  depth source_folder target_folder _.

(* ================================================================= *)
(** ** A small remote store

    A concrete store on which the definitions can be run.  Its state is
    the list of the paths created so far; a PUT on a path that exists is
    answered 422, as the contents API does for a create without a sha. *)

Module Demo.

Definition World : Type := list string.

Definition reports : list entry :=
  [ {| item_name := "a.md"; item_path := "reports/a.md"; item_type := "file" |};
    {| item_name := "missing.md"; item_path := "reports/missing.md";
       item_type := "file" |};
    {| item_name := "2025"; item_path := "reports/2025"; item_type := "dir" |};
    {| item_name := "reports.md"; item_path := "reports/reports.md";
       item_type := "file" |};
    {| item_name := "link"; item_path := "reports/link";
       item_type := "symlink" |};
    {| item_name := "empty.txt"; item_path := "reports/empty.txt";
       item_type := "file" |} ].

Definition reports_2025 : list entry :=
  [ {| item_name := "oct.txt"; item_path := "reports/2025/oct.txt";
       item_type := "file" |} ].

Definition remote_list (path : string) (w : World) : Z * list entry * World :=
  if (path =? "reports")%string then (200%Z, reports, w)
  else if (path =? "reports/2025")%string then (200%Z, reports_2025, w)
  else if (path =? "void")%string then (200%Z, [], w)
  else (404%Z, [], w).

Definition remote_get (path : string) (w : World) : Z * payload * World :=
  if (path =? "reports/a.md")%string
  then (200%Z, Text "Notes of Nav_Oct_2025, October" "sha-a", w)
  else if (path =? "reports/reports.md")%string
  then (200%Z, Text "10/2025" "sha-r", w)
  else if (path =? "reports/empty.txt")%string
  then (200%Z, Text "" "sha-e", w)
  else if (path =? "reports/2025/oct.txt")%string
  then (200%Z, Text "oct" "sha-o", w)
  else (404%Z, Undecodable "'content'", w).

Definition remote_put (path content message : string) (w : World)
    : Z * World :=
  if existsb (String.eqb path) w then (422%Z, w) else (201%Z, path :: w).

(** The store before the run: one of the target files is there already. *)
Definition initial : World := [ "October_2025/reports/a.md" ].

Definition replicate_folder :=
  replicate_folder remote_list remote_get remote_put.

Definition loop_body :=
  loop_body remote_get remote_put.

Definition for_items :=
  for_items remote_get remote_put.

(** The run of the replicator on "reports", and its log. *)
Definition run : option (outcome unit * World * list call) :=
  replicate_folder 2 "reports" "October_2025/reports" initial.

Definition run_log : list call :=
  match run with
  | Some (_, _, log) => log
  | None => []
  end.

Definition a_md : entry :=
  {| item_name := "a.md"; item_path := "reports/a.md"; item_type := "file" |}.

Definition missing_md : entry :=
  {| item_name := "missing.md"; item_path := "reports/missing.md";
     item_type := "file" |}.

Definition dir_2025 : entry :=
  {| item_name := "2025"; item_path := "reports/2025"; item_type := "dir" |}.

(** A measure of the store's directories that decreases along [dir]
    entries. *)
Definition rank (path : string) : nat :=
  if (path =? "reports")%string then 1 else 0.

End Demo.

(* ================================================================= *)
(** ** Part 3: the entry point, the constructor and the diagnostic *)

(** The paths of all the create calls of a log, those of the nested
    invocations included, in the order of the calls. *)
Fixpoint created_paths (c : call) : list string :=
  match c with
  | CreateFile path _ _ _ => [path]
  | ReplicateFolder _ _ body => flat_map created_paths body
  | _ => []
  end.

Definition all_created_paths (log : list call) : list string :=
  flat_map created_paths log.

(** The paths of the fetch calls of a level, in order. *)
Definition fetched_paths (log : list call) : list string :=
  flat_map (fun c => match c with
                     | GetFileContent path _ _ | FetchRaised path _ => [path]
                     | _ => []
                     end) log.

(** The fields [__init__] sets. *)
Record GitHubReplicator : Type := {
  token : string;
  repo : string;
  headers : list (string * string);
  base_url : string
}.

(** [GitHubReplicator()]: the two values are what [os.getenv] returns;
    [inl] holds the message of the [ValueError] raised. *)
Definition init (env_token env_repo : option string)
    : string + GitHubReplicator :=
  match env_token with
  | None | Some EmptyString =>
      inl "GITHUB_TOKEN not found in environment variables"
  | Some token =>
      match env_repo with
      | None | Some EmptyString =>
          inl "GITHUB_REPOSITORY not found in environment variables"
      | Some repo =>
          inr {| token := token;
                 repo := repo;
                 headers :=
                   [("Authorization", "token " ++ token);
                    ("Accept", "application/vnd.github.v3+json")];
                 base_url := "https://api.github.com/repos/" ++ repo |}
      end
  end.

(** [not value], for a value [os.getenv] has returned. *)
Definition missing (value : option string) : bool :=
  match value with
  | Some s => negb (nonempty s)
  | None => true
  end.

(** The lines [__init__] and [main] print. *)
Inductive main_line : Type :=
| RepositoryLine (repo : string)
| ApiBaseLine (base_url : string)
| StartingRoot
| NoContentsInRoot
| Replicating (source_path target_path : string)
| ReplicatingFolder (source_folder target_folder : string)
| CompletedRoot
| FilesProcessed (success_count total_count : nat)
| ErrorLine (message : string).

(** What [main] does, in order: its own lines, and the calls it makes on
    the replicator, each as the replicator logs it. *)
Inductive main_event : Type :=
| Say (l : main_line)
| Did (c : call).

Definition calls_of (log : list main_event) : list call :=
  flat_map (fun e => match e with
                     | Did c => [c]
                     | Say _ => []
                     end) log.

(** The line of the [except] clause of [main]. *)
Definition is_error_line (e : main_event) : bool :=
  match e with
  | Say (ErrorLine _) => true
  | _ => false
  end.

(** What the loop of [main] logs: the calls on the replicator, and the
    line that announces a file or a folder. *)
Definition is_loop_event (e : main_event) : bool :=
  match e with
  | Did _ | Say (Replicating _ _) | Say (ReplicatingFolder _ _) => true
  | Say _ => false
  end.

(** [item['name'] not in ['.gitignore', 'README.md']], negated. *)
Definition excluded (name : string) : bool :=
  (name =? ".gitignore")%string || (name =? "README.md")%string.

(** The root entries [main] replicates as files. *)
Definition eligible (e : entry) : bool :=
  is_file e && negb (excluded (item_name e)).

Definition root_target (name : string) : string := "October_2025/" ++ name.

Definition root_message : string :=
  "chore: replicate Nav_Oct_2025 structure for October_2025".

(** The lines and requests of [debug_repository]. *)
Inductive debug_line : Type :=
| Debugging
| RootContains
| RootItem (dir : bool) (name : string)
| MoreItems (n : nat)
| ErrorAccessing (status_code : Z)
| TokenHint
| NotFoundHint
| CheckingFolders
| ProbeResult (found : bool) (path : string).

Inductive debug_event : Type :=
| RootRequest (status_code : Z)
| ProbeRequest (path : string) (status_code : Z)
| DebugPrint (l : debug_line).

Definition potential_paths : list string :=
  [ "October_2025"; "Nav_Oct_2025"; "Dashboard"; "reports"; "2025" ].

Definition is_request (e : debug_event) : bool :=
  match e with
  | RootRequest _ | ProbeRequest _ _ => true
  | DebugPrint _ => false
  end.

Definition probed (log : list debug_event) : list string :=
  flat_map (fun e => match e with
                     | ProbeRequest path _ => [path]
                     | _ => []
                     end) log.

Definition shown (log : list debug_event) : list (bool * string) :=
  flat_map (fun e => match e with
                     | DebugPrint (RootItem dir name) => [(dir, name)]
                     | _ => []
                     end) log.

Definition announced (log : list debug_event) : list nat :=
  flat_map (fun e => match e with
                     | DebugPrint (MoreItems n) => [n]
                     | _ => []
                     end) log.

Section EntryPoint.

Variable World : Type.
Variable remote_list : string -> World -> Z * list entry * World.
Variable remote_get : string -> World -> Z * payload * World.
Variable remote_put : string -> string -> string -> World -> Z * World.

(** Computations of [main]: as [M], with the log of [main]. *)
Definition MainM (A : Type) : Type :=
  World -> option (outcome A * World * list main_event).

Definition main_ret {A : Type} (a : A) : MainM A :=
  fun w => Some (Returned a, w, []).

Definition main_raise {A : Type} (message : string) : MainM A :=
  fun w => Some (Raised message, w, []).

Definition main_bind {A B : Type} (m : MainM A) (f : A -> MainM B)
    : MainM B :=
  fun w =>
    match m w with
    | Some (Returned a, w1, l1) =>
        match f a w1 with
        | Some (b, w2, l2) => Some (b, w2, (l1 ++ l2)%list)
        | None => None
        end
    | Some (Raised message, w1, l1) => Some (Raised message, w1, l1)
    | None => None
    end.

Notation "x <- m ;; k" := (main_bind m (fun x => k))
  (at level 61, m at next level, right associativity).
Notation "m ;; k" := (main_bind m (fun _ => k))
  (at level 61, right associativity).

Definition say (l : main_line) : MainM unit :=
  fun w => Some (Returned tt, w, [Say l]).

(** A call on the replicator, with what the replicator logs for it; an
    exception of the call is an exception of [main]. *)
Definition lift {A : Type} (m : M World A) : MainM A :=
  fun w =>
    match m w with
    | Some (a, w', log) => Some (a, w', map Did log)
    | None => None
    end.

(** The body of [for item in contents] in [main]. *)
Definition main_body (rec : string -> string -> M World unit) (item : entry)
    (success_count : nat) : MainM nat :=
  if is_file item && negb (excluded (item_name item)) then
    let source_path := item_name item in
    let target_path := root_target source_path in
    say (Replicating source_path target_path) ;;
    fetched <- lift (get_file_content remote_get source_path) ;;
    if nonempty (fst fetched) then
      let updated_content := update_content_references (fst fetched) in
      created <- lift (create_file remote_put target_path updated_content
                         root_message) ;;
      if created then main_ret (S success_count) else main_ret success_count
    else main_ret success_count
  else if is_dir item then
    let source_folder := item_name item in
    let target_folder := root_target source_folder in
    say (ReplicatingFolder source_folder target_folder) ;;
    lift (invoke rec source_folder target_folder) ;;
    main_ret success_count
  else main_ret success_count.

Fixpoint main_items (rec : string -> string -> M World unit)
    (contents : list entry) (success_count : nat) : MainM nat :=
  match contents with
  | [] => main_ret success_count
  | item :: rest =>
      success_count' <- main_body rec item success_count ;;
      main_items rec rest success_count'
  end.

(** The body of the [try] of [main]; [depth] bounds the nesting of the
    invocations of [replicate_folder] it makes.  The constructor raises
    its [ValueError] here. *)
Definition main_try (depth : nat) (env_token env_repo : option string)
    : MainM unit :=
  match init env_token env_repo with
  | inl message => main_raise message
  | inr replicator =>
      say (RepositoryLine (repo replicator)) ;;
      say (ApiBaseLine (base_url replicator)) ;;
      say StartingRoot ;;
      contents <- lift (get_folder_contents remote_list "") ;;
      match contents with
      | [] => say NoContentsInRoot
      | _ :: _ =>
          success_count <-
            main_items (replicate_folder remote_list remote_get remote_put
                          depth) contents 0 ;;
          say CompletedRoot ;;
          say (FilesProcessed success_count (List.length contents))
      end
  end.

(** [main]: the [try] and its [except Exception as e], which prints the
    message of whatever was raised in the constructor, in the loop or in a
    nested invocation, and returns. *)
Definition main (depth : nat) (env_token env_repo : option string)
    (w : World) : option (unit * World * list main_event) :=
  match main_try depth env_token env_repo w with
  | Some (Returned _, w', log) => Some (tt, w', log)
  | Some (Raised message, w', log) =>
      Some (tt, w', (log ++ [Say (ErrorLine message)])%list)
  | None => None
  end.

(** The loop over [potential_paths]: one GET per path, of which the
    status code alone is read. *)
Fixpoint probe (paths : list string) (w : World)
    : World * list debug_event :=
  match paths with
  | [] => (w, [])
  | path :: rest =>
      let '(status_code, _, w1) := remote_list path w in
      let '(w2, log) := probe rest w1 in
      (w2, ProbeRequest path status_code
           :: DebugPrint (ProbeResult (status_code =? 200)%Z path) :: log)
  end.

(** [debug_repository]; the root of the repository is the path [""]. *)
Definition debug_repository (w : World) : World * list debug_event :=
  let '(status_code, contents, w1) := remote_list "" w in
  if (status_code =? 200)%Z then
    let '(w2, probes) := probe potential_paths w1 in
    (w2,
     ([DebugPrint Debugging; RootRequest status_code; DebugPrint RootContains]
      ++ map (fun item => DebugPrint (RootItem (is_dir item) (item_name item)))
             (firstn 10 contents)
      ++ (if (10 <? List.length contents)%nat
          then [DebugPrint (MoreItems (List.length contents - 10))]
          else [])
      ++ DebugPrint CheckingFolders :: probes)%list)
  else
    (w1,
     ([DebugPrint Debugging; RootRequest status_code;
       DebugPrint (ErrorAccessing status_code)]
      ++ (if (status_code =? 401)%Z then [DebugPrint TokenHint]
          else if (status_code =? 404)%Z then [DebugPrint NotFoundHint]
          else []))%list).

End EntryPoint.

Arguments MainM World A : clear implicits.
Arguments main_ret {World A} a _.
Arguments main_raise {World A} message _.
Arguments main_bind {World A B} m f _.
Arguments say {World} l _.
Arguments lift {World A} m _.
Arguments main_body {World} remote_get remote_put rec item success_count _.
Arguments main_items {World} remote_get remote_put rec contents
  success_count _.
Arguments main_try {World} remote_list remote_get remote_put depth
  env_token env_repo _.
Arguments main {World} remote_list remote_get remote_put depth
  env_token env_repo w.
Arguments probe {World} remote_list paths w.
Arguments debug_repository {World} remote_list w.

(* ================================================================= *)
(** ** Three more stores

    [Rooted] puts a root listing over the small store; in [Cyclic] every
    folder lists itself as a directory; [Binary] holds an image, which
    does not decode as text, before a text file. *)

Module Rooted.

Definition root : list entry :=
  [ {| item_name := "main.py"; item_path := "main.py"; item_type := "file" |};
    {| item_name := "README.md"; item_path := "README.md";
       item_type := "file" |};
    {| item_name := "reports"; item_path := "reports"; item_type := "dir" |};
    {| item_name := ".gitignore"; item_path := ".gitignore";
       item_type := "file" |};
    {| item_name := "notes.md"; item_path := "notes.md";
       item_type := "file" |} ].

Definition remote_list (path : string) (w : Demo.World)
    : Z * list entry * Demo.World :=
  if (path =? "")%string then (200%Z, root, w) else Demo.remote_list path w.

Definition remote_get (path : string) (w : Demo.World)
    : Z * payload * Demo.World :=
  if (path =? "main.py")%string then (200%Z, Text "print(2025)" "sha-m", w)
  else Demo.remote_get path w.

Definition main :=
  main remote_list remote_get Demo.remote_put.

Definition rank (path : string) : nat :=
  if (path =? "")%string then 2 else Demo.rank path.

(** A run of [main] with its configuration, and its log. *)
Definition run : option (unit * Demo.World * list main_event) :=
  main 2 (Some "secret") (Some "owner/repo") Demo.initial.

Definition run_log : list main_event :=
  match run with
  | Some (_, _, log) => log
  | None => []
  end.

End Rooted.

Module Cyclic.

Definition remote_list (path : string) (w : unit) : Z * list entry * unit :=
  (200%Z,
   [ {| item_name := "self"; item_path := path; item_type := "dir" |} ], w).

Definition remote_get (path : string) (w : unit) : Z * payload * unit :=
  (404%Z, Undecodable "'content'", w).

Definition remote_put (path content message : string) (w : unit) : Z * unit :=
  (422%Z, w).

End Cyclic.

Module Binary.

Definition assets : list entry :=
  [ {| item_name := "logo.png"; item_path := "assets/logo.png";
       item_type := "file" |};
    {| item_name := "notes.txt"; item_path := "assets/notes.txt";
       item_type := "file" |} ].

Definition root : list entry :=
  [ {| item_name := "logo.png"; item_path := "logo.png";
       item_type := "file" |};
    {| item_name := "main.py"; item_path := "main.py";
       item_type := "file" |} ].

Definition remote_list (path : string) (w : Demo.World)
    : Z * list entry * Demo.World :=
  if (path =? "assets")%string then (200%Z, assets, w)
  else if (path =? "")%string then (200%Z, root, w)
  else (404%Z, [], w).

Definition cannot_decode : string :=
  "'utf-8' codec can't decode byte 0x89 in position 0: invalid start byte".

Definition remote_get (path : string) (w : Demo.World)
    : Z * payload * Demo.World :=
  if (path =? "assets/logo.png")%string || (path =? "logo.png")%string
  then (200%Z, Undecodable cannot_decode, w)
  else (200%Z, Text "notes" "sha-n", w).

Definition replicate_folder :=
  replicate_folder remote_list remote_get Demo.remote_put.

Definition main :=
  main remote_list remote_get Demo.remote_put.

(** The walk on "assets", and its log. *)
Definition run : option (outcome unit * Demo.World * list call) :=
  replicate_folder 1 "assets" "October_2025/assets" nil.

Definition run_log : list call :=
  match run with
  | Some (_, _, log) => log
  | None => []
  end.

End Binary.

(* ================================================================= *)
(** ** Part 1, proofs *)

(* ----------------------------------------------------------------- *)
(** *** Facts about strings *)

Section StringFacts.

Lemma prefix_append (a t : string) : prefix a (a ++ t) = true.
Proof.
  induction a as [|x a IH]; simpl.
  - now destruct t.
  - destruct (ascii_dec x x) as [_|n]; [exact IH | now elim n].
Qed.

Lemma prefix_split (a s : string) :
  prefix a s = true -> s = a ++ drop (String.length a) s.
Proof.
  revert s; induction a as [|x a IH]; intros s H.
  - now destruct s.
  - destruct s as [|y s]; simpl in H; [discriminate|].
    destruct (ascii_dec x y) as [->|]; [|discriminate].
    simpl. f_equal. now apply IH.
Qed.

End StringFacts.

(* ----------------------------------------------------------------- *)
(** *** The equations of [replace] *)

Section ReplaceFacts.

Variables old new : string.

Lemma replace_from_skip (a t : string) :
  replace_from old new (String.length a) (a ++ t) = replace_from old new 0 t.
Proof.
  induction a as [|x a IH]; simpl; [|exact IH].
  destruct t as [|c t]; reflexivity.
Qed.

Hypothesis old_nonempty : old <> "".

Lemma replace_empty : replace "" old new = "".
Proof. unfold replace. destruct old; [congruence | reflexivity]. Qed.

(** A match at the head: [new] is emitted and the scan resumes after
    [old]. *)
Lemma replace_match (t : string) :
  replace (old ++ t) old new = new ++ replace t old new.
Proof.
  unfold replace. destruct old as [|x o] eqn:E; [congruence|].
  change (String x o ++ t) with (String x (o ++ t)).
  cbn [replace_from].
  change (String x (o ++ t)) with (String x o ++ t).
  rewrite prefix_append.
  f_equal. cbn [String.length].
  replace (S (String.length o) - 1) with (String.length o) by lia.
  rewrite <- E. apply replace_from_skip.
Qed.

(** No match at the head: the character is kept. *)
Lemma replace_no_match (c : ascii) (t : string) :
  prefix old (String c t) = false ->
  replace (String c t) old new = String c (replace t old new).
Proof.
  intros H. unfold replace. destruct old as [|x o] eqn:E; [congruence|].
  cbn [replace_from]. now rewrite H.
Qed.

End ReplaceFacts.

(** Replacing a non-empty pattern by itself changes nothing. *)
Lemma replace_from_same (x : ascii) (o s : string) (k : nat) :
  replace_from (String x o) (String x o) k s = drop k s.
Proof.
  revert k; induction s as [|c s IH]; intros k.
  - now destruct k.
  - destruct k as [|k]; cbn [replace_from drop]; [|apply IH].
    destruct (prefix (String x o) (String c s)) eqn:P.
    + rewrite IH. apply prefix_split in P.
      simpl in P. injection P as -> P.
      cbn [String.length].
      replace (S (String.length o) - 1) with (String.length o) by lia.
      simpl. f_equal. symmetry. exact P.
    + now rewrite IH.
Qed.

Lemma interleave_empty (s : string) : interleave "" s = s.
Proof. induction s as [|c s IH]; simpl; [reflexivity | now rewrite IH]. Qed.

Lemma replace_same (s old : string) : replace s old old = s.
Proof.
  unfold replace. destruct old as [|x o].
  - apply interleave_empty.
  - apply replace_from_same.
Qed.

(** A text in which the pattern does not occur is left as it is. *)
Lemma replace_absent (s old new : string) :
  contains old s = false -> replace s old new = s.
Proof.
  unfold replace. destruct old as [|x o].
  - destruct s; discriminate.
  - induction s as [|c s IH]; intros H; [reflexivity|].
    cbn [contains] in H. apply orb_false_elim in H. destruct H as [P H].
    cbn [replace_from]. rewrite P. now rewrite (IH H).
Qed.

(** A table whose pairs all map a pattern to itself rewrites nothing. *)
Lemma apply_replacements_same (table : list (string * string)) :
  Forall (fun p => snd p = fst p) table ->
  forall content, apply_replacements table content = content.
Proof.
  unfold apply_replacements.
  induction 1 as [|[o n] table E _ IH]; intros content; simpl in *.
  - reflexivity.
  - subst n. rewrite replace_same. apply IH.
Qed.

Lemma replacements_same : Forall (fun p => snd p = fst p) replacements.
Proof. unfold replacements. repeat constructor. Qed.


(* ----------------------------------------------------------------- *)
(** *** The rewrite step *)

(** C3: for every input string, [update_content_references] returns the
    string unchanged.  Every (find, replace) pair of the hard-coded table
    has a replacement identical to its find-pattern, so the function is the
    identity on all inputs, with or without tokens in them. *)
Theorem update_content_references_identity :
  (forall old new, In (old, new) replacements -> new = old) /\
  (forall content, update_content_references content = content).
Proof.
  split.
  - intros old new H.
    pose proof replacements_same as F. rewrite Forall_forall in F.
    exact (F _ H).
  - intros content. apply apply_replacements_same, replacements_same.
Qed.

(** C1: the table was to map each source-period token to the spelling of
    the next period.  It maps each token to itself: a text made of the
    tokens comes back as it was, every token still in it, and no pair of
    the table has a replacement that differs from its pattern. *)
Theorem update_content_references_keeps_period :
  let content := "Nav_Oct_2025/October_2025: october, 2025-10 (10/2025)" in
  update_content_references content = content /\
  forallb (fun p => contains (fst p) (update_content_references content))
          replacements = true /\
  existsb (fun p => negb (fst p =? snd p)) replacements = false.
Proof. repeat split. Qed.

(** C5: applying the rewrite step twice gives what applying it once gives,
    for every text.  The proviso of the property holds of the table: no
    replacement value contains a find-pattern that stands earlier. *)
Theorem update_content_references_idempotent :
  no_earlier_pattern [] replacements = true /\
  (forall content,
     update_content_references (update_content_references content)
     = update_content_references content).
Proof.
  split; [reflexivity|].
  intros content.
  now rewrite !(apply_replacements_same _ replacements_same).
Qed.

(** Idempotence is a fact of this table.  For tables in general the proviso
    does not give it: a replacement can complete a new occurrence of its
    own pattern with the text that follows. *)
Remark apply_replacements_twice_differs :
  let table := [("ab", "a")] in
  no_earlier_pattern [] table = true /\
  apply_replacements table "abb" = "ab" /\
  apply_replacements table (apply_replacements table "abb") = "a".
Proof. repeat split. Qed.

(* ----------------------------------------------------------------- *)
(** *** The path mapping *)

(** C4: the mapping of "A/B/c.txt" from source "A" to target "A/Target". *)
Theorem map_path_example :
  replace "A/B/c.txt" "A" "A/Target" = "A/Target/B/c.txt".
Proof. reflexivity. Qed.

(** What the mapping does to a path under the source folder: the leading
    occurrence becomes the target folder, and the rest of the path is
    rewritten in the same way. *)
Lemma map_path_under_source (source_folder target_folder suffix : string) :
  source_folder <> "" ->
  replace (source_folder ++ suffix) source_folder target_folder
  = target_folder ++ replace suffix source_folder target_folder.
Proof. intros H. now apply replace_match. Qed.

(** The remainder is kept when the source folder does not occur in it. *)
Lemma map_path_keeps_suffix (source_folder target_folder suffix : string) :
  source_folder <> "" ->
  contains source_folder suffix = false ->
  replace (source_folder ++ suffix) source_folder target_folder
  = target_folder ++ suffix.
Proof.
  intros H A. rewrite map_path_under_source by assumption.
  now rewrite replace_absent.
Qed.

(** C2: a path under the source folder whose remainder names the source
    folder again is not mapped to the target folder followed by that
    remainder: the later occurrence is rewritten too. *)
Theorem map_path_rewrites_suffix :
  let source_folder := "reports" in
  let target_folder := "October_2025/reports" in
  let suffix := "/reports.md" in
  replace (source_folder ++ suffix) source_folder target_folder
  = "October_2025/reports/October_2025/reports.md" /\
  replace (source_folder ++ suffix) source_folder target_folder
  <> target_folder ++ suffix.
Proof. split; [reflexivity | discriminate]. Qed.

(* ================================================================= *)
(** ** Part 2, proofs *)

Lemma count_app {A : Type} (p : A -> bool) (l1 l2 : list A) :
  count p (l1 ++ l2)%list = count p l1 + count p l2.
Proof. unfold count. now rewrite filter_app, length_app. Qed.

Lemma count_positive {A : Type} (p : A -> bool) (l : list A) :
  0 < count p l <-> exists x, In x l /\ p x = true.
Proof.
  unfold count. split.
  - destruct (filter p l) as [|x f] eqn:E; simpl; [lia|].
    intros _. exists x. apply filter_In. rewrite E. now left.
  - intros [x H]. apply filter_In in H.
    destruct (filter p l); [contradiction | simpl; lia].
Qed.

Lemma file_not_dir (e : entry) : is_file e = true -> is_dir e = false.
Proof.
  unfold is_file, is_dir. intros H. apply String.eqb_eq in H.
  now rewrite H.
Qed.

Lemma dir_not_file (e : entry) : is_dir e = true -> is_file e = false.
Proof.
  intros H. destruct (is_file e) eqn:F; [|reflexivity].
  apply file_not_dir in F. congruence.
Qed.

Lemma level_tally_app (item : entry) (rest : list entry)
    (c c1 c' : counters) (l1 l2 : list call) :
  level_tally [item] c c1 l1 ->
  level_tally rest c1 c' l2 ->
  level_tally (item :: rest) c c' (l1 ++ l2)%list.
Proof.
  unfold level_tally. rewrite !count_app.
  change (item :: rest) with ([item] ++ rest)%list.
  rewrite !count_app, length_app. simpl List.length. lia.
Qed.

Section ReplicatorFacts.

Context {World : Type}.
Variable remote_list : string -> World -> Z * list entry * World.
Variable remote_get : string -> World -> Z * payload * World.
Variable remote_put : string -> string -> string -> World -> Z * World.

#[local] Arguments replace : simpl never.
#[local] Arguments update_content_references : simpl never.
#[local] Arguments commit_message : simpl never.

Ltac unfold_client :=
  unfold get_folder_contents, get_file_content, create_file,
    request_list, request_get, request_put,
    invoke, print, emit, bind, ret, raise, prepend; cbn beta iota.

(** A sequence that ends: its first part has returned and the rest has
    ended in the same way, or its first part has raised. *)
Lemma bind_ends {A B : Type} (m : M World A) (f : A -> M World B)
    (w w2 : World) (o : outcome B) (l : list call) :
  bind m f w = Some (o, w2, l) ->
  (exists a w1 l1 l2,
     m w = Some (Returned a, w1, l1) /\ f a w1 = Some (o, w2, l2) /\
     l = (l1 ++ l2)%list) \/
  (exists message,
     m w = Some (Raised message, w2, l) /\ o = Raised message).
Proof.
  unfold bind, prepend.
  destruct (m w) as [[[[a|message] w1] l1]|] eqn:Em; [| |discriminate].
  - destruct (f a w1) as [[[b' w2'] l2]|] eqn:Ef; [|discriminate].
    intros H. injection H as Hb Hw Hl. subst. left.
    now exists a, w1, l1, l2.
  - intros H. injection H as Hb Hw Hl. subst. right. now exists message.
Qed.

Lemma bind_Some {A B : Type} (m : M World A) (f : A -> M World B)
    (w w2 : World) (b : B) (l : list call) :
  bind m f w = Some (Returned b, w2, l) ->
  exists a w1 l1 l2,
    m w = Some (Returned a, w1, l1) /\
    f a w1 = Some (Returned b, w2, l2) /\ l = (l1 ++ l2)%list.
Proof.
  intros H. apply bind_ends in H.
  destruct H as [H | (message & _ & E)]; [exact H | discriminate E].
Qed.

(** *** The client's methods *)

Lemma get_folder_contents_run (path : string) (w : World) :
  get_folder_contents remote_list path w =
  let '(status, entries, w1) := remote_list path w in
  if (status =? 200)%Z
  then Some (Returned entries, w1, [GetFolderContents path entries])
  else if (status =? 404)%Z
  then Some (Returned [], w1, [Print (ErrorFetching path status);
                               Print (PathNotFound path);
                               GetFolderContents path []])
  else Some (Returned [], w1, [Print (ErrorFetching path status);
                               GetFolderContents path []]).
Proof.
  unfold_client. destruct (remote_list path w) as [[status entries] w1].
  simpl. destruct (status =? 200)%Z; [reflexivity|].
  destruct (status =? 404)%Z; reflexivity.
Qed.

Lemma get_file_content_run (path : string) (w : World) :
  get_file_content remote_get path w =
  let '(status, answer, w1) := remote_get path w in
  if (status =? 200)%Z
  then
    match answer with
    | Text content sha =>
        Some (Returned (content, sha), w1, [GetFileContent path content sha])
    | Undecodable message =>
        Some (Raised message, w1, [FetchRaised path message])
    end
  else Some (Returned ("", ""), w1,
             [Print (ErrorFetchingFile path status);
              GetFileContent path "" ""]).
Proof.
  unfold_client. destruct (remote_get path w) as [[status answer] w1].
  simpl. destruct (status =? 200)%Z; [|reflexivity].
  destruct answer; reflexivity.
Qed.

Lemma create_file_run (path content message : string) (w : World) :
  create_file remote_put path content message w =
  let '(status, w1) := remote_put path content message w in
  if (status =? 201)%Z
  then Some (Returned true, w1, [Print (Created path);
                                 CreateFile path content message true])
  else Some (Returned false, w1, [Print (ErrorCreating path status);
                                  CreateFile path content message false]).
Proof.
  unfold_client. destruct (remote_put path content message w) as [status w1].
  simpl. destruct (status =? 201)%Z; reflexivity.
Qed.

(** The listing method returns, and logs one listing call and nothing
    else but printed lines. *)
Lemma get_folder_contents_log (path : string) (w : World) :
  exists contents w1 l0,
    get_folder_contents remote_list path w
    = Some (Returned contents, w1, l0) /\
    filter is_listing l0 = [GetFolderContents path contents] /\
    count is_fetch l0 = 0 /\ count is_empty_fetch l0 = 0 /\
    count is_create l0 = 0 /\ count is_created l0 = 0 /\
    count is_invocation l0 = 0 /\ invoked l0 = [].
Proof.
  rewrite get_folder_contents_run.
  destruct (remote_list path w) as [[status entries] w1].
  destruct (status =? 200)%Z; [|destruct (status =? 404)%Z];
    do 3 eexists; repeat split; reflexivity.
Qed.

(** *** One entry of the listing *)

Section OneEntry.

Variable rec : string -> string -> M World unit.
Variables source_folder target_folder : string.
Variable item : entry.
Variable c : counters.
Variable w : World.

(** A file whose fetch is not answered 200. *)
Lemma loop_body_fetch_failed (status : Z) (answer : payload)
    (w1 : World) :
  is_file item = true ->
  remote_get (item_path item) w = (status, answer, w1) ->
  (status =? 200)%Z = false ->
  loop_body remote_get remote_put rec source_folder target_folder item c w
  = Some (Returned (incr_total c), w1,
          [Print (ProcessingFile (item_path item));
           Print (ErrorFetchingFile (item_path item) status);
           GetFileContent (item_path item) "" ""]).
Proof.
  intros Hf Hg Hs. unfold loop_body. rewrite Hf. unfold_client.
  rewrite Hg. simpl. rewrite Hs. reflexivity.
Qed.

(** A file that is fetched and is empty. *)
Lemma loop_body_fetch_empty (status : Z) (sha : string) (w1 : World) :
  is_file item = true ->
  remote_get (item_path item) w = (status, Text "" sha, w1) ->
  (status =? 200)%Z = true ->
  loop_body remote_get remote_put rec source_folder target_folder item c w
  = Some (Returned (incr_total c), w1,
          [Print (ProcessingFile (item_path item));
           GetFileContent (item_path item) "" sha]).
Proof.
  intros Hf Hg Hs. unfold loop_body. rewrite Hf. unfold_client.
  rewrite Hg. simpl. rewrite Hs. reflexivity.
Qed.

(** A file whose answer cannot be read: the exception leaves the loop. *)
Lemma loop_body_fetch_raised (status : Z) (message : string) (w1 : World) :
  is_file item = true ->
  remote_get (item_path item) w = (status, Undecodable message, w1) ->
  (status =? 200)%Z = true ->
  loop_body remote_get remote_put rec source_folder target_folder item c w
  = Some (Raised message, w1,
          [Print (ProcessingFile (item_path item));
           FetchRaised (item_path item) message]).
Proof.
  intros Hf Hg Hs. unfold loop_body. rewrite Hf. unfold_client.
  rewrite Hg. simpl. rewrite Hs. reflexivity.
Qed.

(** A file that is fetched with some content: the create call is issued,
    and its answer decides whether the file counts as a success. *)
Lemma loop_body_create (status : Z) (content sha : string) (w1 : World)
    (status' : Z) (w2 : World) :
  let source_path := item_path item in
  let target_path := replace source_path source_folder target_folder in
  let updated_content := update_content_references content in
  let message := commit_message source_folder target_folder in
  is_file item = true ->
  remote_get source_path w = (status, Text content sha, w1) ->
  (status =? 200)%Z = true ->
  nonempty content = true ->
  remote_put target_path updated_content message w1 = (status', w2) ->
  loop_body remote_get remote_put rec source_folder target_folder item c w
  = if (status' =? 201)%Z
    then Some (Returned (incr_success (incr_total c)), w2,
               [Print (ProcessingFile source_path);
                GetFileContent source_path content sha;
                Print (Created target_path);
                CreateFile target_path updated_content message true])
    else Some (Returned (incr_total c), w2,
               [Print (ProcessingFile source_path);
                GetFileContent source_path content sha;
                Print (ErrorCreating target_path status');
                CreateFile target_path updated_content message false]).
Proof.
  intros source_path target_path updated_content message Hf Hg Hs Hn Hp.
  subst source_path target_path updated_content message.
  unfold loop_body. rewrite Hf. unfold_client.
  rewrite Hg. simpl. rewrite Hs. simpl. rewrite Hn.
  rewrite Hp.
  destruct (status' =? 201)%Z; reflexivity.
Qed.

(** A directory: the nested invocation, wrapped, and nothing else but the
    line that announces it; an exception of the nested invocation leaves
    the loop. *)
Lemma loop_body_dir :
  let source_path := item_path item in
  let target_path := replace source_path source_folder target_folder in
  is_file item = false ->
  is_dir item = true ->
  loop_body remote_get remote_put rec source_folder target_folder item c w
  = match rec source_path target_path w with
    | Some (Returned _, w', body) =>
        Some (Returned (incr_total c), w',
              [Print (ProcessingDirectory source_path);
               ReplicateFolder source_path target_path body])
    | Some (Raised message, w', body) =>
        Some (Raised message, w',
              [Print (ProcessingDirectory source_path);
               ReplicateFolder source_path target_path body])
    | None => None
    end.
Proof.
  intros source_path target_path Hf Hd.
  subst source_path target_path.
  unfold loop_body. rewrite Hf, Hd. unfold_client.
  destruct (rec (item_path item) _ w) as [[[[u|message] w'] body]|];
    reflexivity.
Qed.

(** An entry of another kind is counted and passed over. *)
Lemma loop_body_other :
  is_file item = false ->
  is_dir item = false ->
  loop_body remote_get remote_put rec source_folder target_folder item c w
  = Some (Returned (incr_total c), w, []).
Proof. intros Hf Hd. unfold loop_body. now rewrite Hf, Hd. Qed.

End OneEntry.

(** *** The loop over the listing *)

Section Loop.

Variable rec : string -> string -> M World unit.
Variables source_folder target_folder : string.

(** A run of the loop body that returns is one of five: the fetch failed,
    the file is empty, the create was issued, a nested invocation
    returned, or the entry is of another kind. *)
Lemma loop_body_inv (item : entry) (c c1 : counters) (w w1 : World)
    (l1 : list call) :
  let source_path := item_path item in
  let target_path := replace source_path source_folder target_folder in
  loop_body remote_get remote_put rec source_folder target_folder item c w
  = Some (Returned c1, w1, l1) ->
  (is_file item = true /\ c1 = incr_total c /\
   exists status,
     l1 = [Print (ProcessingFile source_path);
           Print (ErrorFetchingFile source_path status);
           GetFileContent source_path "" ""]) \/
  (is_file item = true /\ c1 = incr_total c /\
   exists sha,
     l1 = [Print (ProcessingFile source_path);
           GetFileContent source_path "" sha]) \/
  (is_file item = true /\
   exists (content sha : string) (created : bool) (l : line),
     nonempty content = true /\
     c1 = (if created then incr_success (incr_total c) else incr_total c) /\
     l1 = [Print (ProcessingFile source_path);
           GetFileContent source_path content sha;
           Print l;
           CreateFile target_path (update_content_references content)
             (commit_message source_folder target_folder) created]) \/
  (is_dir item = true /\ c1 = incr_total c /\
   exists body,
     rec source_path target_path w = Some (Returned tt, w1, body) /\
     l1 = [Print (ProcessingDirectory source_path);
           ReplicateFolder source_path target_path body]) \/
  (is_file item = false /\ is_dir item = false /\
   c1 = incr_total c /\ w1 = w /\ l1 = []).
Proof.
  intros source_path target_path H. subst source_path target_path.
  destruct (is_file item) eqn:Hf.
  - destruct (remote_get (item_path item) w)
      as [[status answer] w'] eqn:Hg.
    destruct (status =? 200)%Z eqn:Hs.
    + destruct answer as [content sha|message].
      * destruct content as [|ch content].
        -- rewrite (loop_body_fetch_empty _ _ _ _ _ _ _ _ _ Hf Hg Hs) in H.
           injection H as <- <- <-. right; left. repeat split.
           now exists sha.
        -- destruct (remote_put
                       (replace (item_path item) source_folder target_folder)
                       (update_content_references (String ch content))
                       (commit_message source_folder target_folder) w')
             as [status' w2] eqn:Hp.
           rewrite (loop_body_create _ _ _ _ _ _ _ _ _ _ _ _ Hf Hg Hs
                      eq_refl Hp) in H.
           right; right; left. split; [reflexivity|].
           destruct (status' =? 201)%Z; injection H as <- <- <-.
           ++ exists (String ch content), sha, true. eexists.
              now repeat split.
           ++ exists (String ch content), sha, false. eexists.
              now repeat split.
      * rewrite (loop_body_fetch_raised _ _ _ _ _ _ _ _ _ Hf Hg Hs) in H.
        discriminate H.
    + rewrite (loop_body_fetch_failed _ _ _ _ _ _ _ _ _ Hf Hg Hs) in H.
      injection H as <- <- <-. left. repeat split. now exists status.
  - destruct (is_dir item) eqn:Hd.
    + rewrite (loop_body_dir _ _ _ _ _ _ Hf Hd) in H.
      destruct (rec _ _ w) as [[[[[]|message] w'] body]|] eqn:R;
        [|discriminate|discriminate].
      injection H as <- <- <-. right; right; right; left.
      repeat split. now exists body.
    + rewrite (loop_body_other _ _ _ _ _ _ Hf Hd) in H.
      injection H as <- <- <-. right; right; right; right. now repeat split.
Qed.

Ltac loop_body_cases H :=
  apply loop_body_inv in H;
  destruct H as [(?Hf & -> & ?st & ->) | [(?Hf & -> & ?sha & ->)
    | [(?Hf & ?ct & ?sha & ?ok & ?l & ?Hn & -> & ->)
    | [(?Hd & -> & ?body & ?R & ->) | (?Hf & ?Hd & -> & ?Hw & ->)]]]];
  try (match goal with
       | F : is_file ?i = true |- _ => pose proof (file_not_dir _ F)
       end);
  try (match goal with
       | D : is_dir ?i = true |- _ => pose proof (dir_not_file _ D)
       end).

Lemma loop_body_tally (item : entry) (c c1 : counters) (w w1 : World)
    (l1 : list call) :
  loop_body remote_get remote_put rec source_folder target_folder item c w
  = Some (Returned c1, w1, l1) ->
  level_tally [item] c c1 l1.
Proof.
  intros H. loop_body_cases H;
    unfold level_tally, count; simpl;
    repeat match goal with
           | E : _ = true |- _ => rewrite E
           | E : _ = false |- _ => rewrite E
           end; simpl;
    try (destruct ct; [discriminate|]); try destruct ok; simpl;
    repeat split; lia.
Qed.

Lemma loop_body_invoked (item : entry) (c c1 : counters) (w w1 : World)
    (l1 : list call) :
  loop_body remote_get remote_put rec source_folder target_folder item c w
  = Some (Returned c1, w1, l1) ->
  invoked l1
  = map (fun e => (item_path e,
                   replace (item_path e) source_folder target_folder))
        (filter is_dir [item]).
Proof.
  intros H. loop_body_cases H; simpl;
    repeat match goal with
           | E : is_dir _ = _ |- _ => rewrite E
           end; reflexivity.
Qed.

Lemma loop_body_nested (item : entry) (c c1 : counters) (w w1 : World)
    (l1 : list call) (s d : string) (body : list call) :
  loop_body remote_get remote_put rec source_folder target_folder item c w
  = Some (Returned c1, w1, l1) ->
  In (ReplicateFolder s d body) l1 ->
  rec s d w = Some (Returned tt, w1, body).
Proof.
  intros H. loop_body_cases H; simpl; intros I;
    repeat (destruct I as [I|I]; try discriminate I); try contradiction.
  injection I as <- <- <-. assumption.
Qed.

Lemma for_items_tally (contents : list entry) :
  forall (c c' : counters) (w w' : World) (log : list call),
    for_items remote_get remote_put rec source_folder target_folder
      contents c w = Some (Returned c', w', log) ->
    level_tally contents c c' log.
Proof.
  induction contents as [|item rest IH]; intros c c' w w' log H.
  - injection H as <- <- <-. unfold level_tally, count. simpl.
    repeat split; lia.
  - cbn [for_items] in H. apply bind_Some in H.
    destruct H as (c1 & w1 & l1 & l2 & H1 & H2 & ->).
    eapply level_tally_app; [eapply loop_body_tally | eapply IH]; eassumption.
Qed.

Lemma for_items_invoked (contents : list entry) :
  forall (c c' : counters) (w w' : World) (log : list call),
    for_items remote_get remote_put rec source_folder target_folder
      contents c w = Some (Returned c', w', log) ->
    invoked log
    = map (fun e => (item_path e,
                     replace (item_path e) source_folder target_folder))
          (filter is_dir contents).
Proof.
  induction contents as [|item rest IH]; intros c c' w w' log H.
  - now injection H as <- <- <-.
  - cbn [for_items] in H. apply bind_Some in H.
    destruct H as (c1 & w1 & l1 & l2 & H1 & H2 & ->).
    unfold invoked. rewrite flat_map_app. fold (invoked l1) (invoked l2).
    rewrite (loop_body_invoked _ _ _ _ _ _ H1), (IH _ _ _ _ _ H2).
    change (item :: rest) with ([item] ++ rest)%list.
    now rewrite filter_app, map_app.
Qed.

(** Every nested invocation in the log of the loop is a run of [rec]. *)
Lemma for_items_nested (contents : list entry) :
  forall (c c' : counters) (w w' : World) (log : list call)
         (s d : string) (body : list call),
    for_items remote_get remote_put rec source_folder target_folder
      contents c w = Some (Returned c', w', log) ->
    In (ReplicateFolder s d body) log ->
    exists w0 w0', rec s d w0 = Some (Returned tt, w0', body).
Proof.
  induction contents as [|item rest IH]; intros c c' w w' log s d body H I.
  - injection H as <- <- <-. contradiction.
  - cbn [for_items] in H. apply bind_Some in H.
    destruct H as (c1 & w1 & l1 & l2 & H1 & H2 & ->).
    apply in_app_or in I. destruct I as [I|I].
    + exists w, w1. eapply loop_body_nested; eassumption.
    + eapply IH; eassumption.
Qed.

End Loop.

(** *** One invocation *)

Lemma replicate_folder_run (depth : nat) (source_folder target_folder : string)
    (w w1 : World) (contents : list entry) (l0 : list call) :
  get_folder_contents remote_list source_folder w
  = Some (Returned contents, w1, l0) ->
  replicate_folder remote_list remote_get remote_put (S depth)
    source_folder target_folder w
  = match contents with
    | [] =>
        Some (Returned tt, w1,
              Print (StartingReplication source_folder target_folder)
              :: l0 ++ [Print (NoContentsFound source_folder)])%list
    | _ :: _ =>
        match for_items remote_get remote_put
                (replicate_folder remote_list remote_get remote_put depth)
                source_folder target_folder contents
                {| success_count := 0; total_count := 0 |} w1 with
        | Some (Returned c, w2, l1) =>
            Some (Returned tt, w2,
                  Print (StartingReplication source_folder target_folder)
                  :: l0 ++ l1
                  ++ [Print (Completed (success_count c) (total_count c))])%list
        | Some (Raised message, w2, l1) =>
            Some (Raised message, w2,
                  Print (StartingReplication source_folder target_folder)
                  :: l0 ++ l1)%list
        | None => None
        end
    end.
Proof.
  intros H. cbn [replicate_folder].
  unfold print, emit, bind, prepend; cbn beta iota. rewrite H.
  destruct contents as [|item rest]; [reflexivity|].
  destruct (for_items remote_get remote_put _ source_folder target_folder
              (item :: rest) _ w1) as [[[[c|message] w2] l1]|]; reflexivity.
Qed.

(** Every invocation that returns has issued one listing call of its own,
    on its source folder. *)
Lemma replicate_folder_listing (depth : nat)
    (source_folder target_folder : string) (w w' : World) (log : list call) :
  replicate_folder remote_list remote_get remote_put depth
    source_folder target_folder w = Some (Returned tt, w', log) ->
  exists contents, filter is_listing log
                   = [GetFolderContents source_folder contents].
Proof.
  destruct depth as [|depth]; [discriminate|]. intros H.
  destruct (get_folder_contents_log source_folder w)
    as (contents & w1 & l0 & G & L & _).
  rewrite (replicate_folder_run _ _ _ _ _ _ _ G) in H.
  exists contents. destruct contents as [|item rest].
  - injection H as <- <-. cbn [filter is_listing].
    rewrite filter_app, L. reflexivity.
  - destruct (for_items _ _ _ _ _ _ _ _) as [[[[c|message] w2] l1]|] eqn:F;
      [|discriminate|discriminate].
    injection H as <- <-. apply for_items_tally in F.
    destruct F as (_ & _ & _ & F & _).
    apply length_zero_iff_nil in F.
    cbn [filter is_listing]. rewrite !filter_app, L, F. reflexivity.
Qed.

(** What the listing method returns is what the store has answered. *)
Lemma get_folder_contents_answer (path : string) (w w1 : World)
    (contents : list entry) (l0 : list call) :
  get_folder_contents remote_list path w
  = Some (Returned contents, w1, l0) ->
  exists status entries,
    remote_list path w = (status, entries, w1) /\
    (contents = [] \/ status = 200%Z /\ contents = entries).
Proof.
  rewrite get_folder_contents_run.
  destruct (remote_list path w) as [[status entries] w0].
  destruct (status =? 200)%Z eqn:S200.
  - apply Z.eqb_eq in S200. intros H. injection H as <- <- <-.
    exists status, entries. split; [reflexivity|]. now right.
  - destruct (status =? 404)%Z; intros H; injection H as <- <- <-;
      exists status, entries; (split; [reflexivity|]); now left.
Qed.

Section Ends.

(** The stores on which the walk ends.  [Inv] holds of the states the
    store goes through, and [rank] is a measure of its folders that, in
    these states, decreases from a listed folder to each of its [dir]
    entries: the tree under a folder is of finite depth, and stays so
    while the replicator writes. *)
Variable Inv : World -> Prop.
Variable rank : string -> nat.

Hypothesis list_keeps :
  forall path w status entries w1,
    Inv w -> remote_list path w = (status, entries, w1) -> Inv w1.
Hypothesis get_keeps :
  forall path w status answer w1,
    Inv w -> remote_get path w = (status, answer, w1) -> Inv w1.
Hypothesis put_keeps :
  forall path content message w status w1,
    Inv w -> remote_put path content message w = (status, w1) -> Inv w1.
Hypothesis rank_decreases :
  forall path w entries w1 e,
    Inv w -> remote_list path w = (200%Z, entries, w1) ->
    In e entries -> is_dir e = true ->
    rank (item_path e) < rank path.

(** The loop body ends, in a return or in an exception, when the nested
    invocation of a directory entry does. *)
Lemma loop_body_ends (rec : string -> string -> M World unit)
    (source_folder target_folder : string) (item : entry) (c : counters)
    (w : World) :
  Inv w ->
  (is_dir item = true ->
   exists o w' body,
     rec (item_path item)
       (replace (item_path item) source_folder target_folder) w
     = Some (o, w', body) /\ Inv w') ->
  exists o w1 l1,
    loop_body remote_get remote_put rec source_folder target_folder item c w
    = Some (o, w1, l1) /\ Inv w1.
Proof.
  intros Hw R. destruct (is_file item) eqn:Hf.
  - destruct (remote_get (item_path item) w)
      as [[status answer] w'] eqn:Hg.
    pose proof (get_keeps _ _ _ _ _ Hw Hg) as Hw'.
    destruct (status =? 200)%Z eqn:Hs.
    + destruct answer as [content sha|message].
      * destruct content as [|ch content].
        -- rewrite (loop_body_fetch_empty _ _ _ _ _ _ _ _ _ Hf Hg Hs).
           now do 3 eexists.
        -- destruct (remote_put
                       (replace (item_path item) source_folder target_folder)
                       (update_content_references (String ch content))
                       (commit_message source_folder target_folder) w')
             as [status' w2] eqn:Hp.
           pose proof (put_keeps _ _ _ _ _ _ Hw' Hp) as Hw2.
           rewrite (loop_body_create _ _ _ _ _ _ _ _ _ _ _ _ Hf Hg Hs
                      eq_refl Hp).
           destruct (status' =? 201)%Z; now do 3 eexists.
      * rewrite (loop_body_fetch_raised _ _ _ _ _ _ _ _ _ Hf Hg Hs).
        now do 3 eexists.
    + rewrite (loop_body_fetch_failed _ _ _ _ _ _ _ _ _ Hf Hg Hs).
      now do 3 eexists.
  - destruct (is_dir item) eqn:Hd.
    + rewrite (loop_body_dir _ _ _ _ _ _ Hf Hd).
      destruct (R eq_refl) as (o & w' & body & -> & Hw').
      destruct o as [u|message]; now do 3 eexists.
    + rewrite (loop_body_other _ _ _ _ _ _ Hf Hd). now do 3 eexists.
Qed.



(** The states of a run satisfy [Inv]. *)
Lemma loop_body_keeps (rec : string -> string -> M World unit)
    (source_folder target_folder : string) (item : entry) (c : counters)
    (w w1 : World) (o : outcome counters) (l1 : list call) :
  Inv w ->
  (forall o' w' body,
     rec (item_path item)
       (replace (item_path item) source_folder target_folder) w
     = Some (o', w', body) -> Inv w') ->
  loop_body remote_get remote_put rec source_folder target_folder item c w
  = Some (o, w1, l1) ->
  Inv w1.
Proof.
  intros Hw R H.
  destruct (loop_body_ends rec source_folder target_folder item c w Hw)
    as (o2 & w2 & l2 & B & Hw2).
  - intros Hd. rewrite (loop_body_dir _ _ _ _ _ _ (dir_not_file _ Hd) Hd)
      in H.
    destruct (rec _ _ w) as [[[o' w'] body]|] eqn:E;
      [|destruct o; discriminate H].
    exists o', w', body. split; [reflexivity|]. eapply R. reflexivity.
  - rewrite B in H. now injection H as <- <- <-.
Qed.

Lemma for_items_keeps (rec : string -> string -> M World unit)
    (source_folder target_folder : string) (contents : list entry) :
  (forall e w o' w' body,
     In e contents -> Inv w ->
     rec (item_path e)
       (replace (item_path e) source_folder target_folder) w
     = Some (o', w', body) -> Inv w') ->
  forall (c : counters) (w w' : World) (o : outcome counters)
         (log : list call),
    Inv w ->
    for_items remote_get remote_put rec source_folder target_folder
      contents c w = Some (o, w', log) ->
    Inv w'.
Proof.
  induction contents as [|item rest IH]; intros R c w w' o log Hw H.
  - now injection H as <- <- <-.
  - cbn [for_items] in H. apply bind_ends in H.
    assert (forall o1 w1 l1,
              loop_body remote_get remote_put rec source_folder
                target_folder item c w = Some (o1, w1, l1) -> Inv w1) as K.
    { intros o1 w1 l1. apply loop_body_keeps; [exact Hw|].
      intros o' w0 body. apply R; [now left | exact Hw]. }
    destruct H as [(c1 & w1 & l1 & l2 & H1 & H2 & _) | (message & H1 & _)].
    + eapply (IH (fun e w0 o' w0' body I => R e w0 o' w0' body (or_intror I)));
        [|exact H2]. eapply K; exact H1.
    + eapply K; exact H1.
Qed.

Lemma replicate_folder_keeps (depth : nat) :
  forall (source_folder target_folder : string) (w w' : World)
         (o : outcome unit) (log : list call),
    Inv w ->
    replicate_folder remote_list remote_get remote_put depth
      source_folder target_folder w = Some (o, w', log) ->
    Inv w'.
Proof.
  induction depth as [|depth IH];
    intros source_folder target_folder w w' o log Hw H; [discriminate|].
  destruct (get_folder_contents_log source_folder w)
    as (contents & w1 & l0 & G & _).
  rewrite (replicate_folder_run _ _ _ _ _ _ _ G) in H.
  destruct (get_folder_contents_answer _ _ _ _ _ G)
    as (status & entries & L & _).
  pose proof (list_keeps _ _ _ _ _ Hw L) as Hw1.
  destruct contents as [|item rest]; [now injection H as <- <- <-|].
  destruct (for_items _ _ _ _ _ _ _ _) as [[[[c|message] w2] l1]|] eqn:F;
    [| |discriminate]; injection H as <- <- <-;
    (eapply for_items_keeps; [|exact Hw1|exact F]);
    intros e w0 o' w0' body _ Hw0; now apply IH.
Qed.

(** An exception leaves the loop body from the fetch of a file that is
    answered 200 and cannot be read, or from the nested invocation of a
    directory. *)
Lemma loop_body_raised (rec : string -> string -> M World unit)
    (source_folder target_folder : string) (item : entry) (c : counters)
    (w w1 : World) (message : string) (l1 : list call) :
  loop_body remote_get remote_put rec source_folder target_folder item c w
  = Some (Raised message, w1, l1) ->
  (is_file item = true /\
   remote_get (item_path item) w = (200%Z, Undecodable message, w1) /\
   l1 = [Print (ProcessingFile (item_path item));
         FetchRaised (item_path item) message]) \/
  (is_dir item = true /\
   exists body,
     rec (item_path item)
       (replace (item_path item) source_folder target_folder) w
     = Some (Raised message, w1, body) /\
     l1 = [Print (ProcessingDirectory (item_path item));
           ReplicateFolder (item_path item)
             (replace (item_path item) source_folder target_folder) body]).
Proof.
  intros H. destruct (is_file item) eqn:Hf.
  - destruct (remote_get (item_path item) w)
      as [[status answer] w'] eqn:Hg.
    destruct (status =? 200)%Z eqn:Hs.
    + destruct answer as [content sha|message'].
      * destruct content as [|ch content].
        -- now rewrite (loop_body_fetch_empty _ _ _ _ _ _ _ _ _ Hf Hg Hs)
             in H.
        -- destruct (remote_put
                       (replace (item_path item) source_folder target_folder)
                       (update_content_references (String ch content))
                       (commit_message source_folder target_folder) w')
             as [status' w2] eqn:Hp.
           rewrite (loop_body_create _ _ _ _ _ _ _ _ _ _ _ _ Hf Hg Hs
                      eq_refl Hp) in H.
           destruct (status' =? 201)%Z; discriminate H.
      * rewrite (loop_body_fetch_raised _ _ _ _ _ _ _ _ _ Hf Hg Hs) in H.
        injection H as <- <- <-. apply Z.eqb_eq in Hs. subst status.
        left. now repeat split.
    + now rewrite (loop_body_fetch_failed _ _ _ _ _ _ _ _ _ Hf Hg Hs) in H.
  - destruct (is_dir item) eqn:Hd.
    + rewrite (loop_body_dir _ _ _ _ _ _ Hf Hd) in H.
      destruct (rec _ _ w) as [[[[u|message'] w'] body]|] eqn:R;
        [discriminate H| |discriminate H].
      injection H as <- <- <-. right. split; [reflexivity|].
      now exists body.
    + now rewrite (loop_body_other _ _ _ _ _ _ Hf Hd) in H.
Qed.

(** An exception that leaves the loop has left the body of one entry. *)
Lemma for_items_raised (rec : string -> string -> M World unit)
    (source_folder target_folder : string) (contents : list entry) :
  (forall e w o' w' body,
     In e contents -> Inv w ->
     rec (item_path e)
       (replace (item_path e) source_folder target_folder) w
     = Some (o', w', body) -> Inv w') ->
  forall (c : counters) (w w' : World) (message : string) (log : list call),
    Inv w ->
    for_items remote_get remote_put rec source_folder target_folder
      contents c w = Some (Raised message, w', log) ->
    exists (item : entry) (c0 : counters) (w0 : World) (l0 l1 : list call),
      In item contents /\ Inv w0 /\
      loop_body remote_get remote_put rec source_folder target_folder
        item c0 w0 = Some (Raised message, w', l1) /\
      log = (l0 ++ l1)%list.
Proof.
  induction contents as [|item rest IH]; intros R c w w' message log Hw H;
    [discriminate|].
  cbn [for_items] in H. apply bind_ends in H.
  destruct H as [(c1 & w1 & l1 & l2 & H1 & H2 & ->) | (message' & H1 & E)].
  - assert (Inv w1) as Hw1.
    { eapply loop_body_keeps; [exact Hw| |exact H1].
      intros o' w0 body. apply R; [now left | exact Hw]. }
    destruct (IH (fun e w0 o' w0' body I => R e w0 o' w0' body (or_intror I))
                _ _ _ _ _ Hw1 H2)
      as (e & c0 & w0 & l0 & l3 & I & Hw0 & B & ->).
    exists e, c0, w0, (l1 ++ l0)%list, l3.
    repeat split; [now right | exact Hw0 | exact B | apply app_assoc].
  - injection E as <-. exists item, c, w, [], log.
    repeat split; [now left | exact Hw | exact H1].
Qed.

(** An exception that leaves the walk was raised by the fetch of a file
    that the store has answered with status 200 and a body that cannot be
    read. *)
Lemma replicate_folder_raised (depth : nat) :
  forall (source_folder target_folder : string) (w w' : World)
         (message : string) (log : list call),
    Inv w ->
    replicate_folder remote_list remote_get remote_put depth
      source_folder target_folder w = Some (Raised message, w', log) ->
    exists path w0 w1,
      Inv w0 /\ remote_get path w0 = (200%Z, Undecodable message, w1).
Proof.
  induction depth as [|depth IH];
    intros source_folder target_folder w w' message log Hw H; [discriminate|].
  destruct (get_folder_contents_log source_folder w)
    as (contents & w1 & l0 & G & _).
  rewrite (replicate_folder_run _ _ _ _ _ _ _ G) in H.
  destruct (get_folder_contents_answer _ _ _ _ _ G)
    as (status & entries & L & _).
  pose proof (list_keeps _ _ _ _ _ Hw L) as Hw1.
  destruct contents as [|item rest]; [discriminate|].
  destruct (for_items _ _ _ _ _ _ _ _) as [[[[c|message'] w2] l1]|] eqn:F;
    [discriminate| |discriminate].
  injection H as <- <- <-.
  apply for_items_raised in F; [|  |exact Hw1].
  - destruct F as (e & c0 & w0 & l2 & l3 & _ & Hw0 & B & _).
    apply loop_body_raised in B.
    destruct B as [(_ & Hg & _) | (_ & body & R & _)].
    + now exists (item_path e), w0, w2.
    + eapply IH; [exact Hw0 | exact R].
  - intros e w0 o' w0' body _ Hw0.
    now apply (replicate_folder_keeps depth).
Qed.

End Ends.

(** The log of an invocation that returns: the opening line, the listing,
    the calls of the loop, and the closing line. *)
Lemma replicate_folder_shape (depth : nat)
    (source_folder target_folder : string) (w w1 w' : World)
    (contents : list entry) (l0 log : list call) :
  get_folder_contents remote_list source_folder w
  = Some (Returned contents, w1, l0) ->
  replicate_folder remote_list remote_get remote_put depth
    source_folder target_folder w = Some (Returned tt, w', log) ->
  exists (l1 : list call) (c' : counters) (closing : line),
    log = (Print (StartingReplication source_folder target_folder)
           :: l0 ++ l1 ++ [Print closing])%list /\
    level_tally contents {| success_count := 0; total_count := 0 |} c' l1 /\
    invoked l1
    = map (fun e => (item_path e,
                     replace (item_path e) source_folder target_folder))
          (filter is_dir contents) /\
    (forall s d body, In (ReplicateFolder s d body) l1 ->
       exists r, filter is_listing body = [GetFolderContents s r]) /\
    closing = match contents with
              | [] => NoContentsFound source_folder
              | _ :: _ => Completed (success_count c') (total_count c')
              end.
Proof.
  intros G H. destruct depth as [|depth]; [discriminate|].
  rewrite (replicate_folder_run _ _ _ _ _ _ _ G) in H.
  destruct contents as [|item rest].
  - injection H as <- <-.
    exists [], {| success_count := 0; total_count := 0 |},
      (NoContentsFound source_folder).
    repeat split; try reflexivity. intros s d body [].
  - destruct (for_items _ _ _ _ _ _ _ _) as [[[[c|message] w2] l1]|] eqn:F;
      [|discriminate|discriminate].
    injection H as <- <-.
    exists l1, c, (Completed (success_count c) (total_count c)).
    split; [reflexivity|].
    split; [eapply for_items_tally; exact F|].
    split; [eapply for_items_invoked; exact F|].
    split; [|reflexivity].
    intros s d body I.
    destruct (for_items_nested _ _ _ _ _ _ _ _ _ _ _ _ F I) as (w0 & w0' & N).
    eapply replicate_folder_listing; exact N.
Qed.

End ReplicatorFacts.

Lemma count_level (q : call -> bool) (opening closing : line)
    (l0 l1 : list call) :
  q (Print opening) = false -> q (Print closing) = false ->
  count q (Print opening :: l0 ++ l1 ++ [Print closing])%list
  = count q l0 + count q l1.
Proof.
  intros Ho Hc. unfold count. cbn [filter]. rewrite Ho.
  rewrite !filter_app, !length_app. cbn [filter]. rewrite Hc. simpl. lia.
Qed.

Lemma empty_fetch_in (log : list call) :
  (exists x, In x log /\ is_empty_fetch x = true) <->
  (exists path sha, In (GetFileContent path "" sha) log).
Proof.
  split.
  - intros (x & I & E). destruct x as [| path content sha | | | |];
      try discriminate E.
    destruct content; [|discriminate E]. now exists path, sha.
  - intros (path & sha & I). now exists (GetFileContent path "" sha).
Qed.

Lemma no_invocation_in (l : list call) (s d : string) (body : list call) :
  count is_invocation l = 0 -> ~ In (ReplicateFolder s d body) l.
Proof.
  intros Z I.
  assert (0 < count is_invocation l) as P; [|lia].
  apply count_positive. now exists (ReplicateFolder s d body).
Qed.

(* ================================================================= *)
(** ** The replicator, level by level *)

Section Claims.

Context {World : Type}.
Variable remote_list : string -> World -> Z * list entry * World.
Variable remote_get : string -> World -> Z * payload * World.
Variable remote_put : string -> string -> string -> World -> Z * World.

(** C6: an invocation that returns.  For a listing with N file entries
    and M directory entries, it has issued N fetch calls of its own, one
    nested invocation per directory entry (M in all, on the directories of
    the listing in order, each with one listing call of its own, on that
    directory), and at most N create calls; the creates are fewer than N
    exactly when a fetch has returned the empty content.  An invocation
    that ends returns unless an exception leaves it: that of a fetch whose
    answer cannot be read, in the invocation or in one nested in it. *)
Theorem replicate_folder_returned_calls (depth : nat)
    (source_folder target_folder : string) (w w1 w' : World)
    (contents : list entry) (l0 log : list call) :
  get_folder_contents remote_list source_folder w
  = Some (Returned contents, w1, l0) ->
  replicate_folder remote_list remote_get remote_put depth
    source_folder target_folder w = Some (Returned tt, w', log) ->
  count is_fetch log = count is_file contents /\
  count is_invocation log = count is_dir contents /\
  invoked log
  = map (fun e => (item_path e,
                   replace (item_path e) source_folder target_folder))
        (filter is_dir contents) /\
  (forall s d body, In (ReplicateFolder s d body) log ->
     exists r, filter is_listing body = [GetFolderContents s r]) /\
  count is_create log <= count is_file contents /\
  (count is_create log < count is_file contents <->
   exists path sha, In (GetFileContent path "" sha) log).
Proof.
  intros G H.
  destruct (replicate_folder_shape _ _ _ _ _ _ _ _ _ _ _ _ G H)
    as (l1 & c' & closing & -> & T & I & N & _).
  destruct (get_folder_contents_log remote_list source_folder w)
    as (contents' & w1' & l0' & G' & L & F0 & E0 & C0 & _ & V0 & I0).
  rewrite G in G'. injection G' as <- <- <-.
  destruct T as (Tf & Tc & Ti & _).
  rewrite <- empty_fetch_in, <- count_positive.
  rewrite !count_level by reflexivity.
  repeat split; try lia.
  - unfold invoked. cbn [flat_map]. rewrite !flat_map_app.
    fold (invoked l0) (invoked l1). rewrite I0, I. cbn. apply app_nil_r.
  - intros s d body [E|J]; [discriminate E|].
    apply in_app_or in J. destruct J as [J|J].
    + now apply (no_invocation_in _ s d body) in V0.
    + apply in_app_or in J. destruct J as [J|[E|[]]];
        [now apply N with d | discriminate E].
Qed.

(** C7: a file whose fetch is not answered 200 (404, say): the fetch
    returns the pair of empty strings, the loop issues no create call for
    the entry, and the entry is counted in [total_count], not in
    [success_count]. *)
Theorem fetch_failure_skips_create (rec : string -> string -> M World unit)
    (source_folder target_folder : string) (item : entry) (c : counters)
    (w w1 : World) (status : Z) (answer : payload) :
  is_file item = true ->
  remote_get (item_path item) w = (status, answer, w1) ->
  status <> 200%Z ->
  get_file_content remote_get (item_path item) w
  = Some (Returned ("", ""), w1,
          [Print (ErrorFetchingFile (item_path item) status);
           GetFileContent (item_path item) "" ""]) /\
  exists log,
    loop_body remote_get remote_put rec source_folder target_folder item c w
    = Some (Returned {| success_count := success_count c;
                        total_count := S (total_count c) |}, w1, log) /\
    count is_fetch log = 1 /\ count is_create log = 0.
Proof.
  intros Hf Hg Hs. apply Z.eqb_neq in Hs. split.
  - rewrite get_file_content_run, Hg. now rewrite Hs.
  - eexists. split; [|split].
    + apply (loop_body_fetch_failed remote_get remote_put _ _ _ _ _ _ _ _ _
               Hf Hg Hs).
    + reflexivity.
    + reflexivity.
Qed.

(** C8: when the listing of the source folder is empty, the invocation
    returns, at whatever depth it runs, after the line that reports no
    contents; it has issued no fetch, no create and no nested
    invocation. *)
Theorem replicate_folder_empty_listing (depth : nat)
    (source_folder target_folder : string) (w w1 : World) (l0 : list call) :
  get_folder_contents remote_list source_folder w
  = Some (Returned [], w1, l0) ->
  let log := (Print (StartingReplication source_folder target_folder)
              :: l0 ++ [Print (NoContentsFound source_folder)])%list in
  replicate_folder remote_list remote_get remote_put (S depth)
    source_folder target_folder w = Some (Returned tt, w1, log) /\
  count is_create log = 0 /\
  count is_fetch log = 0 /\
  count is_invocation log = 0.
Proof.
  intros G log. split.
  - now rewrite (replicate_folder_run _ _ _ _ _ _ _ _ _ _ G).
  - destruct (get_folder_contents_log remote_list source_folder w)
      as (contents' & w1' & l0' & G' & _ & F0 & _ & C0 & _ & V0 & _).
    rewrite G in G'. injection G' as E1 E2 E3. subst contents' w1' l0' log.
    change (l0 ++ [Print (NoContentsFound source_folder)])%list
      with (l0 ++ [] ++ [Print (NoContentsFound source_folder)])%list.
    rewrite !count_level by reflexivity. rewrite F0, C0, V0. now repeat split.
Qed.

(** C9: a file whose create call is not answered 201: [create_file]
    returns [False] after the line that reports the error, the entry is
    counted in [total_count] and not in [success_count], and the loop goes
    on with the rest of the listing from there. *)
Theorem create_failure_continues (rec : string -> string -> M World unit)
    (source_folder target_folder : string) (item : entry)
    (rest : list entry) (c : counters) (w w1 w2 : World)
    (content sha : string) (status : Z) :
  let source_path := item_path item in
  let target_path := replace source_path source_folder target_folder in
  let updated_content := update_content_references content in
  let message := commit_message source_folder target_folder in
  is_file item = true ->
  remote_get source_path w = (200%Z, Text content sha, w1) ->
  nonempty content = true ->
  remote_put target_path updated_content message w1 = (status, w2) ->
  status <> 201%Z ->
  create_file remote_put target_path updated_content message w1
  = Some (Returned false, w2,
          [Print (ErrorCreating target_path status);
           CreateFile target_path updated_content message false]) /\
  for_items remote_get remote_put rec source_folder target_folder
    (item :: rest) c w
  = prepend
      [Print (ProcessingFile source_path);
       GetFileContent source_path content sha;
       Print (ErrorCreating target_path status);
       CreateFile target_path updated_content message false]
      (for_items remote_get remote_put rec source_folder target_folder rest
         {| success_count := success_count c;
            total_count := S (total_count c) |} w2).
Proof.
  intros source_path target_path updated_content message Hf Hg Hn Hp Hs.
  apply Z.eqb_neq in Hs. split.
  - rewrite create_file_run, Hp. now rewrite Hs.
  - cbn [for_items]. unfold bind.
    rewrite (loop_body_create remote_get remote_put _ _ _ _ _ _ _ _ _ _ _ _
               Hf Hg eq_refl Hn Hp).
    now rewrite Hs.
Qed.

(** C10: a directory entry whose nested invocation returns, with
    whatever log.  The loop body returns the counters the level had when
    it made the call: [total_count] was incremented for the entry before
    the call and [success_count] is as it was.  The nested invocation
    hands nothing back; its log is one call of the level, and none of the
    level's creates. *)
Theorem recursion_keeps_counters (rec : string -> string -> M World unit)
    (source_folder target_folder : string) (item : entry) (c : counters)
    (w w1 : World) (body : list call) :
  let source_path := item_path item in
  let target_path := replace source_path source_folder target_folder in
  is_dir item = true ->
  rec source_path target_path w = Some (Returned tt, w1, body) ->
  let log := [Print (ProcessingDirectory source_path);
              ReplicateFolder source_path target_path body] in
  loop_body remote_get remote_put rec source_folder target_folder item c w
  = Some (Returned {| success_count := success_count c;
                      total_count := S (total_count c) |}, w1, log) /\
  count is_created log = 0 /\
  count is_create log = 0.
Proof.
  intros source_path target_path Hd R log.
  pose proof (dir_not_file _ Hd) as Hf.
  rewrite (loop_body_dir remote_get remote_put _ _ _ _ _ _ Hf Hd).
  fold source_path target_path. rewrite R. now repeat split.
Qed.

(** X3: the line that closes a level reports the level's own calls: the
    creates of the level that succeeded, over the entries of its listing
    (files, directories and others alike).  The creates inside nested
    invocations are not among them. *)
Lemma replicate_folder_summary (depth : nat)
    (source_folder target_folder : string) (w w1 w' : World)
    (contents : list entry) (l0 log : list call) :
  get_folder_contents remote_list source_folder w
  = Some (Returned contents, w1, l0) ->
  contents <> [] ->
  replicate_folder remote_list remote_get remote_put depth
    source_folder target_folder w = Some (Returned tt, w', log) ->
  exists l,
    log = (l ++ [Print (Completed (count is_created log)
                          (List.length contents))])%list.
Proof.
  intros G Hc H.
  destruct (replicate_folder_shape _ _ _ _ _ _ _ _ _ _ _ _ G H)
    as (l1 & c' & closing & -> & T & _ & _ & ->).
  destruct (get_folder_contents_log remote_list source_folder w)
    as (contents' & w1' & l0' & G' & _ & _ & _ & _ & D0 & _).
  rewrite G in G'. injection G' as <- <- <-.
  destruct contents as [|item rest]; [congruence|].
  destruct T as (_ & _ & _ & _ & Tt & Ts). cbn [success_count total_count] in *.
  rewrite count_level by reflexivity. rewrite D0, Tt, Ts. cbn [Nat.add].
  exists (Print (StartingReplication source_folder target_folder)
          :: l0 ++ l1)%list.
  cbn [app]. now rewrite app_assoc.
Qed.

End Claims.

(* ================================================================= *)
(** ** The replicator on the small store *)

Lemma replicate_folder_returned_calls_witness :
  let log := Demo.run_log in
  let contents := Demo.reports in
  count is_fetch log = count is_file contents /\
  count is_invocation log = count is_dir contents /\
  invoked log
  = map (fun e => (item_path e,
                   replace (item_path e) "reports" "October_2025/reports"))
        (filter is_dir contents) /\
  (forall s d body, In (ReplicateFolder s d body) log ->
     exists r, filter is_listing body = [GetFolderContents s r]) /\
  count is_create log <= count is_file contents /\
  (count is_create log < count is_file contents <->
   exists path sha, In (GetFileContent path "" sha) log).
Proof.
  eapply (replicate_folder_returned_calls Demo.remote_list Demo.remote_get
            Demo.remote_put 2 "reports" "October_2025/reports" Demo.initial);
    vm_compute; reflexivity.
Defined.

(** The claim without the proviso of a return fails on a folder that
    holds an image before a text file: the fetch of the image raises, the
    walk ends there, and one fetch has been issued for two file entries. *)
Lemma replicate_folder_calls_counterexample :
  get_folder_contents Binary.remote_list "assets" []
  = Some (Returned Binary.assets, [],
          [GetFolderContents "assets" Binary.assets]) /\
  Binary.replicate_folder 1 "assets" "October_2025/assets" []
  = Some (Raised Binary.cannot_decode, [], Binary.run_log) /\
  count is_file Binary.assets = 2 /\
  count is_fetch Binary.run_log = 1 /\
  count is_fetch Binary.run_log <> count is_file Binary.assets.
Proof.
  repeat split; try (vm_compute; reflexivity). vm_compute. discriminate.
Qed.

Lemma fetch_failure_skips_create_witness :
  get_file_content Demo.remote_get "reports/missing.md" Demo.initial
  = Some (Returned ("", ""), Demo.initial,
          [Print (ErrorFetchingFile "reports/missing.md" 404);
           GetFileContent "reports/missing.md" "" ""]) /\
  exists log,
    Demo.loop_body (Demo.replicate_folder 1) "reports" "October_2025/reports"
      Demo.missing_md {| success_count := 0; total_count := 1 |} Demo.initial
    = Some (Returned {| success_count := 0; total_count := 2 |},
            Demo.initial, log) /\
    count is_fetch log = 1 /\ count is_create log = 0.
Proof.
  apply (fetch_failure_skips_create Demo.remote_get Demo.remote_put
           (Demo.replicate_folder 1) "reports" "October_2025/reports"
           Demo.missing_md {| success_count := 0; total_count := 1 |}
           Demo.initial Demo.initial 404%Z (Undecodable "'content'"));
    [reflexivity | vm_compute; reflexivity | lia].
Defined.

Lemma replicate_folder_empty_listing_witness :
  let log := [Print (StartingReplication "nope" "October_2025/nope");
              Print (ErrorFetching "nope" 404);
              Print (PathNotFound "nope");
              GetFolderContents "nope" [];
              Print (NoContentsFound "nope")] in
  Demo.replicate_folder 1 "nope" "October_2025/nope" Demo.initial
  = Some (Returned tt, Demo.initial, log) /\
  count is_create log = 0 /\
  count is_fetch log = 0 /\
  count is_invocation log = 0.
Proof.
  apply (replicate_folder_empty_listing Demo.remote_list Demo.remote_get
           Demo.remote_put 0 "nope" "October_2025/nope" Demo.initial
           Demo.initial
           [Print (ErrorFetching "nope" 404); Print (PathNotFound "nope");
            GetFolderContents "nope" []]).
  vm_compute; reflexivity.
Defined.

Lemma create_failure_continues_witness :
  let target_path := "October_2025/reports/a.md" in
  let content := "Notes of Nav_Oct_2025, October" in
  let message :=
    "chore: replicate reports structure for October_2025/reports" in
  create_file Demo.remote_put target_path content message Demo.initial
  = Some (Returned false, Demo.initial,
          [Print (ErrorCreating target_path 422);
           CreateFile target_path content message false]) /\
  Demo.for_items (Demo.replicate_folder 1) "reports" "October_2025/reports"
    [Demo.a_md; Demo.missing_md] {| success_count := 0; total_count := 0 |}
    Demo.initial
  = prepend
      [Print (ProcessingFile "reports/a.md");
       GetFileContent "reports/a.md" content "sha-a";
       Print (ErrorCreating target_path 422);
       CreateFile target_path content message false]
      (Demo.for_items (Demo.replicate_folder 1) "reports"
         "October_2025/reports" [Demo.missing_md]
         {| success_count := 0; total_count := 1 |} Demo.initial).
Proof.
  apply (create_failure_continues Demo.remote_get Demo.remote_put
           (Demo.replicate_folder 1) "reports" "October_2025/reports"
           Demo.a_md [Demo.missing_md]
           {| success_count := 0; total_count := 0 |}
           Demo.initial Demo.initial Demo.initial
           "Notes of Nav_Oct_2025, October" "sha-a" 422%Z);
    [reflexivity | vm_compute; reflexivity | reflexivity
    | vm_compute; reflexivity | lia].
Defined.

Lemma recursion_keeps_counters_witness :
  let body :=
    [Print (StartingReplication "reports/2025" "October_2025/reports/2025");
     GetFolderContents "reports/2025" Demo.reports_2025;
     Print (ProcessingFile "reports/2025/oct.txt");
     GetFileContent "reports/2025/oct.txt" "oct" "sha-o";
     Print (Created "October_2025/reports/2025/oct.txt");
     CreateFile "October_2025/reports/2025/oct.txt" "oct"
       "chore: replicate reports/2025 structure for October_2025/reports/2025"
       true;
     Print (Completed 1 1)] in
  let log :=
    [Print (ProcessingDirectory "reports/2025");
     ReplicateFolder "reports/2025" "October_2025/reports/2025" body] in
  Demo.loop_body (Demo.replicate_folder 1) "reports" "October_2025/reports"
    Demo.dir_2025 {| success_count := 3; total_count := 5 |} Demo.initial
  = Some (Returned {| success_count := 3; total_count := 6 |},
          "October_2025/reports/2025/oct.txt" :: Demo.initial, log) /\
  count is_created log = 0 /\
  count is_create log = 0.
Proof.
  intros body log.
  apply (recursion_keeps_counters Demo.remote_get Demo.remote_put
           (Demo.replicate_folder 1) "reports" "October_2025/reports"
           Demo.dir_2025 {| success_count := 3; total_count := 5 |}
           Demo.initial ("October_2025/reports/2025/oct.txt" :: Demo.initial)
           body);
    [reflexivity | vm_compute; reflexivity].
Defined.

(** The level of "reports" reports one success over six entries; the
    create of the nested level is not in its tally. *)
Example demo_run_closing_line :
  last Demo.run_log (Print (NoContentsFound "")) = Print (Completed 1 6).
Proof. vm_compute. reflexivity. Qed.

(* ================================================================= *)
(** ** Part 3, proofs: the whole walk *)

Lemma append_assoc (a b c : string) : (a ++ b) ++ c = a ++ (b ++ c).
Proof. induction a as [|x a IH]; simpl; [reflexivity | now rewrite IH]. Qed.

Lemma prefix_trans (a b c : string) :
  prefix a b = true -> prefix b c = true -> prefix a c = true.
Proof.
  intros Hab Hbc. apply prefix_split in Hab. apply prefix_split in Hbc.
  rewrite Hbc, Hab, append_assoc. apply prefix_append.
Qed.

(** A path under the source folder is mapped under the target folder. *)
Lemma map_path_prefix (source_folder target_folder p : string) :
  source_folder <> "" ->
  prefix source_folder p = true ->
  prefix target_folder (replace p source_folder target_folder) = true.
Proof.
  intros Hn Hp. apply prefix_split in Hp. rewrite Hp.
  rewrite map_path_under_source by assumption. apply prefix_append.
Qed.

Lemma prefix_nonempty (a b : string) :
  a <> "" -> prefix a b = true -> b <> "".
Proof. intros Ha Hp ->. destruct a; [congruence | discriminate]. Qed.

Section WalkFacts.

Context {World : Type}.
Variable remote_list : string -> World -> Z * list entry * World.
Variable remote_get : string -> World -> Z * payload * World.
Variable remote_put : string -> string -> string -> World -> Z * World.

(** The listing method creates nothing. *)
Lemma get_folder_contents_creates_nothing (path : string) (w w1 : World)
    (contents : list entry) (l0 : list call) :
  get_folder_contents remote_list path w
  = Some (Returned contents, w1, l0) ->
  all_created_paths l0 = [].
Proof.
  rewrite get_folder_contents_run.
  destruct (remote_list path w) as [[status entries] w'].
  destruct (status =? 200)%Z; [|destruct (status =? 404)%Z];
    intros H; injection H as <- <- <-; reflexivity.
Qed.

(** The entries a listing returns are entries the store has answered,
    with status 200. *)
Lemma get_folder_contents_entries (path : string) (w w1 : World)
    (contents : list entry) (l0 : list call) (e : entry) :
  get_folder_contents remote_list path w
  = Some (Returned contents, w1, l0) ->
  In e contents ->
  exists entries w', remote_list path w = (200%Z, entries, w') /\ In e entries.
Proof.
  rewrite get_folder_contents_run.
  destruct (remote_list path w) as [[status entries] w'] eqn:L.
  destruct (status =? 200)%Z eqn:S200.
  - apply Z.eqb_eq in S200. subst status.
    intros H I. injection H as <- <- <-. now exists entries, w'.
  - destruct (status =? 404)%Z; intros H I; injection H as <- <- <-;
      contradiction.
Qed.

(** The creates of a run of the loop body, however it ends: none, the one
    of the file at its mapped path, or those of the nested invocation. *)
Lemma loop_body_created (rec : string -> string -> M World unit)
    (source_folder target_folder : string) (item : entry) (c : counters)
    (w w1 : World) (o : outcome counters) (l1 : list call) :
  let source_path := item_path item in
  let target_path := replace source_path source_folder target_folder in
  loop_body remote_get remote_put rec source_folder target_folder item c w
  = Some (o, w1, l1) ->
  all_created_paths l1 = [] \/
  all_created_paths l1 = [target_path] \/
  (is_dir item = true /\
   exists o' body,
     rec source_path target_path w = Some (o', w1, body) /\
     all_created_paths l1 = all_created_paths body).
Proof.
  intros source_path target_path H. subst source_path target_path.
  destruct (is_file item) eqn:Hf.
  - destruct (remote_get (item_path item) w)
      as [[status answer] w'] eqn:Hg.
    destruct (status =? 200)%Z eqn:Hs.
    + destruct answer as [content sha|message].
      * destruct content as [|ch content].
        -- rewrite (loop_body_fetch_empty remote_get remote_put
                      _ _ _ _ _ _ _ _ _ Hf Hg Hs) in H.
           injection H as <- <- <-. now left.
        -- destruct (remote_put
                       (replace (item_path item) source_folder target_folder)
                       (update_content_references (String ch content))
                       (commit_message source_folder target_folder) w')
             as [status' w2] eqn:Hp.
           rewrite (loop_body_create remote_get remote_put
                      _ _ _ _ _ _ _ _ _ _ _ _ Hf Hg Hs eq_refl Hp) in H.
           destruct (status' =? 201)%Z; injection H as <- <- <-;
             right; now left.
      * rewrite (loop_body_fetch_raised remote_get remote_put
                   _ _ _ _ _ _ _ _ _ Hf Hg Hs) in H.
        injection H as <- <- <-. now left.
    + rewrite (loop_body_fetch_failed remote_get remote_put
                 _ _ _ _ _ _ _ _ _ Hf Hg Hs) in H.
      injection H as <- <- <-. now left.
  - destruct (is_dir item) eqn:Hd.
    + rewrite (loop_body_dir remote_get remote_put _ _ _ _ _ _ Hf Hd) in H.
      destruct (rec _ _ w) as [[[[u|message] w'] body]|] eqn:R;
        [| |discriminate]; injection H as <- <- <-;
        right; right; (split; [reflexivity|]); do 2 eexists;
        (split; [reflexivity|]); cbn; apply app_nil_r.
    + rewrite (loop_body_other remote_get remote_put _ _ _ _ _ _ Hf Hd) in H.
      injection H as <- <- <-. now left.
Qed.

Section Under.

(** The store lists, under a folder, paths that extend the folder's. *)
Hypothesis listed_under :
  forall path w entries w1 e,
    remote_list path w = (200%Z, entries, w1) ->
    In e entries -> prefix path (item_path e) = true.

Lemma for_items_created_under (rec : string -> string -> M World unit)
    (source_folder target_folder : string) :
  source_folder <> "" ->
  (forall s d w o w' body,
     s <> "" -> rec s d w = Some (o, w', body) ->
     Forall (fun p => prefix d p = true) (all_created_paths body)) ->
  forall (contents : list entry) (c : counters) (o : outcome counters)
         (w w' : World) (log : list call),
    (forall e, In e contents ->
       prefix source_folder (item_path e) = true) ->
    for_items remote_get remote_put rec source_folder target_folder
      contents c w = Some (o, w', log) ->
    Forall (fun p => prefix target_folder p = true) (all_created_paths log).
Proof.
  intros Hn Hrec.
  assert (forall item c w o w1 l1,
            prefix source_folder (item_path item) = true ->
            loop_body remote_get remote_put rec source_folder target_folder
              item c w = Some (o, w1, l1) ->
            Forall (fun p => prefix target_folder p = true)
                   (all_created_paths l1)) as Hbody.
  { intros item c w o w1 l1 Hp H.
    pose proof (map_path_prefix _ target_folder _ Hn Hp) as Ht.
    apply loop_body_created in H.
    destruct H as [-> | [-> | (_ & o' & body & R & ->)]].
    - constructor.
    - constructor; [exact Ht | constructor].
    - apply Hrec in R; [|exact (prefix_nonempty _ _ Hn Hp)].
      eapply Forall_impl; [|exact R].
      intros p Hd. cbn beta in Hd. eapply prefix_trans; eassumption. }
  induction contents as [|item rest IH]; intros c o w w' log Hc H.
  - injection H as <- <- <-. constructor.
  - cbn [for_items] in H. apply bind_ends in H.
    destruct H as [(c1 & w1 & l1 & l2 & H1 & H2 & ->) | (message & H1 & _)].
    + unfold all_created_paths. rewrite flat_map_app. apply Forall_app.
      split.
      * eapply Hbody; [|exact H1]. apply Hc. now left.
      * eapply IH; [|exact H2]. intros e I. apply Hc. now right.
    + eapply Hbody; [|exact H1]. apply Hc. now left.
Qed.

Lemma replicate_folder_created_under (depth : nat) :
  forall (source_folder target_folder : string) (w w' : World)
         (o : outcome unit) (log : list call),
    source_folder <> "" ->
    replicate_folder remote_list remote_get remote_put depth
      source_folder target_folder w = Some (o, w', log) ->
    Forall (fun p => prefix target_folder p = true) (all_created_paths log).
Proof.
  induction depth as [|depth IH];
    intros source_folder target_folder w w' o log Hn H; [discriminate|].
  destruct (get_folder_contents_log remote_list source_folder w)
    as (contents & w1 & l0 & G & _).
  pose proof (get_folder_contents_creates_nothing _ _ _ _ _ G) as C0.
  rewrite (replicate_folder_run _ _ _ _ _ _ _ _ _ _ G) in H.
  destruct contents as [|item rest].
  - injection H as <- <- <-. unfold all_created_paths in *.
    cbn [flat_map created_paths app]. rewrite flat_map_app, C0.
    constructor.
  - assert (forall e, In e (item :: rest) ->
              prefix source_folder (item_path e) = true) as Hc.
    { intros e I.
      destruct (get_folder_contents_entries _ _ _ _ _ _ G I)
        as (entries & w0 & L & I').
      eapply listed_under; eassumption. }
    destruct (for_items _ _ _ _ _ _ _ _) as [[[[c|message] w2] l1]|] eqn:F;
      [| |discriminate]; injection H as <- <- <-;
      unfold all_created_paths in *;
      cbn [flat_map created_paths app]; rewrite !flat_map_app, C0;
      cbn [flat_map created_paths app]; rewrite ?app_nil_r;
      (eapply (for_items_created_under _ _ _ Hn); [|exact Hc|exact F]);
      intros s d w0 o' w0' body Hs R; eapply IH; eassumption.
Qed.

End Under.

End WalkFacts.

(* ----------------------------------------------------------------- *)
(** *** Whether the walk returns *)

Section Returns.

Context {World : Type}.
Variable remote_list : string -> World -> Z * list entry * World.
Variable remote_get : string -> World -> Z * payload * World.
Variable remote_put : string -> string -> string -> World -> Z * World.






(** A loop that returns has had every nested invocation return. *)
Lemma for_items_dir_returned (rec : string -> string -> M World unit)
    (source_folder target_folder : string) (contents : list entry) :
  forall (c c' : counters) (w w' : World) (log : list call) (e : entry),
    for_items remote_get remote_put rec source_folder target_folder
      contents c w = Some (Returned c', w', log) ->
    In e contents -> is_dir e = true ->
    exists w0 w0' body,
      rec (item_path e)
        (replace (item_path e) source_folder target_folder) w0
      = Some (Returned tt, w0', body).
Proof.
  induction contents as [|item rest IH]; intros c c' w w' log e H I D;
    [contradiction|].
  cbn [for_items] in H. apply bind_Some in H.
  destruct H as (c1 & w1 & l1 & l2 & H1 & H2 & ->).
  destruct I as [<-|I]; [|eapply IH; eassumption].
  pose proof (dir_not_file _ D) as Hf.
  rewrite (loop_body_dir remote_get remote_put _ _ _ _ _ _ Hf D) in H1.
  destruct (rec _ _ w) as [[[[[]|message] w0'] body]|] eqn:R;
    [|discriminate H1|discriminate H1].
  now exists w, w0', body.
Qed.

(** On a store in which some folders each list, with status 200, a
    directory entry that is one of them again, no walk from such a folder
    returns. *)
Lemma replicate_folder_loops (looping : string -> Prop) :
  (forall path w0,
     looping path ->
     exists entries w1 e,
       remote_list path w0 = (200%Z, entries, w1) /\
       In e entries /\ is_dir e = true /\ looping (item_path e)) ->
  forall (depth : nat) (source_folder target_folder : string)
         (w w' : World) (log : list call),
    looping source_folder ->
    replicate_folder remote_list remote_get remote_put depth
      source_folder target_folder w <> Some (Returned tt, w', log).
Proof.
  intros L depth.
  induction depth as [|depth IH];
    intros source_folder target_folder w w' log P; [discriminate|].
  destruct (L source_folder w P) as (entries & w1 & e & Hl & I & D & P').
  assert (get_folder_contents remote_list source_folder w
          = Some (Returned entries, w1,
                  [GetFolderContents source_folder entries]))
    as G by (rewrite get_folder_contents_run, Hl; reflexivity).
  rewrite (replicate_folder_run _ _ _ _ _ _ _ _ _ _ G).
  destruct entries as [|item rest]; [contradiction|].
  destruct (for_items _ _ _ _ _ _ _ _) as [[[[c|message] w2] l1]|] eqn:F;
    [|discriminate|discriminate].
  intros _.
  destruct (for_items_dir_returned _ _ _ _ _ _ _ _ _ _ F I D)
    as (w0 & w0' & body & N).
  exact (IH _ _ _ _ _ P' N).
Qed.

(** X5: there is no depth limit and no cycle check.  On a store in which
    some folders each list, with status 200, a directory entry that is one
    of them again (a cycle, or a chain without end), the walk from such a
    folder does not return within any bound on the nesting; and when the
    store answers no fetch with status 200 and a body that cannot be read,
    so that no exception ends the walk either, the walk does not end within
    any bound. *)
Theorem replicate_folder_never_returns (looping : string -> Prop)
    (depth : nat) (source_folder target_folder : string) (w : World) :
  (forall path w0,
     looping path ->
     exists entries w1 e,
       remote_list path w0 = (200%Z, entries, w1) /\
       In e entries /\ is_dir e = true /\ looping (item_path e)) ->
  looping source_folder ->
  (forall w' log,
     replicate_folder remote_list remote_get remote_put depth
       source_folder target_folder w <> Some (Returned tt, w', log)) /\
  ((forall path w0 message w1,
      remote_get path w0 <> (200%Z, Undecodable message, w1)) ->
   replicate_folder remote_list remote_get remote_put depth
     source_folder target_folder w = None).
Proof.
  intros L P. split.
  - intros w' log. now apply (replicate_folder_loops looping L).
  - intros Hdec.
    destruct (replicate_folder remote_list remote_get remote_put depth
                source_folder target_folder w)
      as [[[[[]|message] w'] log]|] eqn:H; [| |reflexivity]; exfalso.
    + exact (replicate_folder_loops looping L _ _ _ _ _ _ P H).
    + apply (replicate_folder_raised remote_list remote_get remote_put
               (fun _ => True)) in H; try exact I; try (intros; exact I).
      destruct H as (path & w0 & w1 & _ & Hg). now apply Hdec in Hg.
Qed.

(** A loop that an exception leaves has returned from the entries before
    one of the listing, and the exception has left the body of that one. *)
Lemma for_items_raised_at (rec : string -> string -> M World unit)
    (source_folder target_folder : string) (contents : list entry) :
  forall (c : counters) (w w' : World) (message : string) (log : list call),
    for_items remote_get remote_put rec source_folder target_folder
      contents c w = Some (Raised message, w', log) ->
    exists (done : list entry) (item : entry) (rest : list entry)
           (c1 : counters) (w1 : World) (l1 l2 : list call),
      contents = (done ++ item :: rest)%list /\
      for_items remote_get remote_put rec source_folder target_folder
        done c w = Some (Returned c1, w1, l1) /\
      loop_body remote_get remote_put rec source_folder target_folder
        item c1 w1 = Some (Raised message, w', l2) /\
      log = (l1 ++ l2)%list.
Proof.
  induction contents as [|item rest IH]; intros c w w' message log H;
    [discriminate|].
  cbn [for_items] in H. apply bind_ends in H.
  destruct H as [(c1 & w1 & l1 & l2 & H1 & H2 & ->) | (message' & H1 & E)].
  - destruct (IH _ _ _ _ _ H2)
      as (done & e & rest' & c2 & w2 & l3 & l4 & -> & F & B & ->).
    exists (item :: done), e, rest', c2, w2, (l1 ++ l3)%list, l4.
    repeat split; [|exact B|apply app_assoc].
    cbn [for_items]. unfold bind, prepend. now rewrite H1, F.
  - injection E as <-. exists [], item, rest, c, w, [], log.
    now repeat split.
Qed.

(** X15: an invocation that an exception leaves.  It has gone through
    the entries of the listing in order up to one of them, with the calls
    of an invocation that returns for the entries before it, and it ends
    with the calls of that entry: the fetch that has raised, or the nested
    invocation that an exception has left.  It issues no call for the
    entries after it and prints no closing line, so its fetches are at
    most the files of the listing and its creates fewer than its
    fetches or as many. *)
Theorem replicate_folder_raised_calls (depth : nat)
    (source_folder target_folder : string) (w w1 w' : World)
    (contents : list entry) (l0 log : list call) (message : string) :
  get_folder_contents remote_list source_folder w
  = Some (Returned contents, w1, l0) ->
  replicate_folder remote_list remote_get remote_put depth
    source_folder target_folder w = Some (Raised message, w', log) ->
  exists (done : list entry) (item : entry) (rest : list entry)
         (l1 l2 : list call),
    contents = (done ++ item :: rest)%list /\
    log = (Print (StartingReplication source_folder target_folder)
           :: l0 ++ l1 ++ l2)%list /\
    count is_fetch l1 = count is_file done /\
    count is_create l1 + count is_empty_fetch l1 = count is_file done /\
    invoked l1
    = map (fun e => (item_path e,
                     replace (item_path e) source_folder target_folder))
          (filter is_dir done) /\
    (is_file item = true /\
     l2 = [Print (ProcessingFile (item_path item));
           FetchRaised (item_path item) message] \/
     is_dir item = true /\
     exists body,
       l2 = [Print (ProcessingDirectory (item_path item));
             ReplicateFolder (item_path item)
               (replace (item_path item) source_folder target_folder)
               body]) /\
    count is_fetch log <= count is_file contents /\
    count is_invocation log <= count is_dir contents /\
    count is_create log <= count is_fetch log.
Proof.
  intros G H. destruct depth as [|depth]; [discriminate|].
  rewrite (replicate_folder_run _ _ _ _ _ _ _ _ _ _ G) in H.
  destruct (get_folder_contents_log remote_list source_folder w)
    as (contents' & w1' & l0' & G' & _ & F0 & _ & C0 & _ & V0 & _).
  rewrite G in G'. injection G' as <- <- <-.
  destruct contents as [|item0 rest0]; [discriminate|].
  destruct (for_items _ _ _ _ _ _ _ _) as [[[[c|message'] w2] l]|] eqn:F;
    [discriminate| |discriminate].
  injection H as <- <- <-.
  apply for_items_raised_at in F.
  destruct F as (done & item & rest & c1 & w0 & l1 & l2 & E & F & B & ->).
  pose proof (for_items_tally _ _ _ _ _ _ _ _ _ _ _ F)
    as (Tf & Tc & Ti & _).
  pose proof (for_items_invoked _ _ _ _ _ _ _ _ _ _ _ F) as Tv.
  assert (forall q : call -> bool,
            q (Print (StartingReplication source_folder target_folder))
            = false ->
            count q (Print (StartingReplication source_folder target_folder)
                     :: l0 ++ l1 ++ l2)%list
            = count q l0 + count q l1 + count q l2) as K.
  { intros q Hq. unfold count. cbn [filter].
    rewrite Hq, !filter_app, !length_app. lia. }
  exists done, item, rest, l1, l2.
  rewrite E, !K, !count_app, F0, V0, C0 by reflexivity.
  apply loop_body_raised in B.
  destruct B as [(Hf & _ & ->) | (Hd & body & _ & ->)].
  - pose proof (file_not_dir _ Hf) as Hd.
    repeat split; try assumption; [left; now split| | |];
      unfold count in *; cbn [filter]; rewrite ?Hf, ?Hd; cbn; lia.
  - pose proof (dir_not_file _ Hd) as Hf.
    repeat split; try assumption;
      [right; split; [assumption | now exists body]| | |];
      unfold count in *; cbn [filter]; rewrite ?Hf, ?Hd; cbn; lia.
Qed.

(** X2: an empty file.  A file entry
    whose fetch is answered 200 with an empty text is counted in
    [total_count] and passed over: no create call, no error line, the
    same outcome for the counters as a failed fetch. *)
Theorem empty_file_is_skipped (rec : string -> string -> M World unit)
    (source_folder target_folder : string) (item : entry) (c : counters)
    (w w1 : World) (sha : string) :
  is_file item = true ->
  remote_get (item_path item) w = (200%Z, Text "" sha, w1) ->
  loop_body remote_get remote_put rec source_folder target_folder item c w
  = Some (Returned {| success_count := success_count c;
                      total_count := S (total_count c) |}, w1,
          [Print (ProcessingFile (item_path item));
           GetFileContent (item_path item) "" sha]).
Proof.
  intros Hf Hg.
  exact (loop_body_fetch_empty remote_get remote_put _ _ _ _ _ _ _ _ _
           Hf Hg eq_refl).
Qed.

End Returns.

(* ----------------------------------------------------------------- *)
(** *** The entry point *)

Lemma calls_of_app (l1 l2 : list main_event) :
  calls_of (l1 ++ l2)%list = (calls_of l1 ++ calls_of l2)%list.
Proof. apply flat_map_app. Qed.

Lemma calls_of_say (l : main_line) (log : list main_event) :
  calls_of (Say l :: log) = calls_of log.
Proof. reflexivity. Qed.

Lemma calls_of_did (l : list call) : calls_of (map Did l) = l.
Proof. induction l as [|c l IH]; simpl; [reflexivity | now rewrite IH]. Qed.

Lemma dir_not_eligible (e : entry) : is_dir e = true -> eligible e = false.
Proof.
  intros D. unfold eligible. now rewrite (dir_not_file _ D).
Qed.

Lemma count_lt_length {A : Type} (p : A -> bool) (l : list A) (x : A) :
  In x l -> p x = false -> count p l < List.length l.
Proof.
  unfold count. induction l as [|y l IH]; intros I Hx; [contradiction|].
  cbn [filter List.length]. destruct I as [->|I].
  - rewrite Hx. pose proof (filter_length_le p l). lia.
  - specialize (IH I Hx). destruct (p y); cbn [List.length]; lia.
Qed.

Section MainFacts.

Context {World : Type}.
Variable remote_list : string -> World -> Z * list entry * World.
Variable remote_get : string -> World -> Z * payload * World.
Variable remote_put : string -> string -> string -> World -> Z * World.

Lemma main_bind_ends {A B : Type} (m : MainM World A)
    (f : A -> MainM World B) (w w2 : World) (o : outcome B)
    (l : list main_event) :
  main_bind m f w = Some (o, w2, l) ->
  (exists a w1 l1 l2,
     m w = Some (Returned a, w1, l1) /\ f a w1 = Some (o, w2, l2) /\
     l = (l1 ++ l2)%list) \/
  (exists message,
     m w = Some (Raised message, w2, l) /\ o = Raised message).
Proof.
  unfold main_bind.
  destruct (m w) as [[[[a|message] w1] l1]|] eqn:Em; [| |discriminate].
  - destruct (f a w1) as [[[b' w2'] l2]|] eqn:Ef; [|discriminate].
    intros H. injection H as Hb Hw Hl. subst. left.
    now exists a, w1, l1, l2.
  - intros H. injection H as Hb Hw Hl. subst. right. now exists message.
Qed.

Lemma main_bind_Some {A B : Type} (m : MainM World A)
    (f : A -> MainM World B) (w w2 : World) (b : B)
    (l : list main_event) :
  main_bind m f w = Some (Returned b, w2, l) ->
  exists a w1 l1 l2,
    m w = Some (Returned a, w1, l1) /\
    f a w1 = Some (Returned b, w2, l2) /\ l = (l1 ++ l2)%list.
Proof.
  intros H. apply main_bind_ends in H.
  destruct H as [H | (message & _ & E)]; [exact H | discriminate E].
Qed.

(** The body of the loop of [main], entry by entry. *)
Lemma main_body_file (rec : string -> string -> M World unit) (item : entry)
    (s : nat) (w : World) :
  eligible item = true ->
  main_body remote_get remote_put rec item s w
  = let name := item_name item in
    let target := root_target name in
    let '(status, answer, w1) := remote_get name w in
    if (status =? 200)%Z
    then
      match answer with
      | Text "" sha =>
          Some (Returned s, w1,
                [Say (Replicating name target);
                 Did (GetFileContent name "" sha)])
      | Text content sha =>
          let '(status', w2) :=
            remote_put target (update_content_references content)
              root_message w1 in
          if (status' =? 201)%Z
          then Some (Returned (S s), w2,
                     [Say (Replicating name target);
                      Did (GetFileContent name content sha);
                      Did (Print (Created target));
                      Did (CreateFile target
                             (update_content_references content)
                             root_message true)])
          else Some (Returned s, w2,
                     [Say (Replicating name target);
                      Did (GetFileContent name content sha);
                      Did (Print (ErrorCreating target status'));
                      Did (CreateFile target
                             (update_content_references content)
                             root_message false)])
      | Undecodable message =>
          Some (Raised message, w1,
                [Say (Replicating name target);
                 Did (FetchRaised name message)])
      end
    else Some (Returned s, w1,
               [Say (Replicating name target);
                Did (Print (ErrorFetchingFile name status));
                Did (GetFileContent name "" "")]).
Proof.
  intros He. unfold main_body. fold (eligible item). rewrite He.
  unfold main_bind, say, lift, main_ret. rewrite get_file_content_run.
  destruct (remote_get (item_name item) w) as [[status answer] w1].
  destruct (status =? 200)%Z; [|reflexivity].
  destruct answer as [content sha|message]; [|reflexivity].
  destruct content as [|ch content]; [reflexivity|].
  cbn [fst snd nonempty]. rewrite create_file_run.
  destruct (remote_put _ _ _ w1) as [status' w2].
  destruct (status' =? 201)%Z; reflexivity.
Qed.

Lemma main_body_dir (rec : string -> string -> M World unit) (item : entry)
    (s : nat) (w : World) :
  eligible item = false ->
  is_dir item = true ->
  main_body remote_get remote_put rec item s w
  = let name := item_name item in
    let target := root_target name in
    match rec name target w with
    | Some (Returned _, w1, body) =>
        Some (Returned s, w1,
              [Say (ReplicatingFolder name target);
               Did (ReplicateFolder name target body)])
    | Some (Raised message, w1, body) =>
        Some (Raised message, w1,
              [Say (ReplicatingFolder name target);
               Did (ReplicateFolder name target body)])
    | None => None
    end.
Proof.
  intros He Hd. unfold main_body. fold (eligible item). rewrite He, Hd.
  unfold main_bind, say, lift, main_ret, invoke. cbn zeta.
  destruct (rec _ _ w) as [[[[u|message] w1] body]|]; reflexivity.
Qed.

Lemma main_body_other (rec : string -> string -> M World unit) (item : entry)
    (s : nat) (w : World) :
  eligible item = false ->
  is_dir item = false ->
  main_body remote_get remote_put rec item s w = Some (Returned s, w, []).
Proof.
  intros He Hd. unfold main_body. fold (eligible item). now rewrite He, Hd.
Qed.

(** A run of the body of the loop of [main] that returns is one of five,
    as for the loop of [replicate_folder]; the files are fetched by
    name. *)
Lemma main_body_inv (rec : string -> string -> M World unit) (item : entry)
    (s s1 : nat) (w w1 : World) (l1 : list main_event) :
  let name := item_name item in
  let target := root_target name in
  main_body remote_get remote_put rec item s w
  = Some (Returned s1, w1, l1) ->
  (eligible item = true /\ s1 = s /\
   exists status,
     l1 = [Say (Replicating name target);
           Did (Print (ErrorFetchingFile name status));
           Did (GetFileContent name "" "")]) \/
  (eligible item = true /\ s1 = s /\
   exists sha,
     l1 = [Say (Replicating name target);
           Did (GetFileContent name "" sha)]) \/
  (eligible item = true /\
   exists (content sha : string) (created : bool) (l : line),
     nonempty content = true /\
     s1 = (if created then S s else s) /\
     l1 = [Say (Replicating name target);
           Did (GetFileContent name content sha);
           Did (Print l);
           Did (CreateFile target (update_content_references content)
                  root_message created)]) \/
  (is_dir item = true /\ s1 = s /\
   exists body,
     rec name target w = Some (Returned tt, w1, body) /\
     l1 = [Say (ReplicatingFolder name target);
           Did (ReplicateFolder name target body)]) \/
  (eligible item = false /\ is_dir item = false /\
   s1 = s /\ w1 = w /\ l1 = []).
Proof.
  intros name target. subst name target.
  destruct (eligible item) eqn:He.
  - rewrite (main_body_file _ _ _ _ He). cbn zeta.
    destruct (remote_get (item_name item) w) as [[status answer] w'].
    destruct (status =? 200)%Z.
    + destruct answer as [content sha|message]; [|discriminate].
      destruct content as [|ch content].
      * intros H. injection H as <- <- <-. right; left.
        repeat split. now exists sha.
      * destruct (remote_put _ _ _ w') as [status' w2].
        intros H. right; right; left. split; [reflexivity|].
        destruct (status' =? 201)%Z; injection H as <- <- <-.
        -- exists (String ch content), sha, true. eexists. now repeat split.
        -- exists (String ch content), sha, false. eexists. now repeat split.
    + intros H. injection H as <- <- <-. left.
      repeat split. now exists status.
  - destruct (is_dir item) eqn:Hd.
    + rewrite (main_body_dir _ _ _ _ He Hd). cbn zeta.
      destruct (rec _ _ w) as [[[[[]|message] w'] body]|] eqn:R;
        [|discriminate|discriminate].
      intros H. injection H as <- <- <-.
      right; right; right; left. repeat split. now exists body.
    + rewrite (main_body_other _ _ _ _ He Hd).
      intros H. injection H as <- <- <-.
      right; right; right; right. now repeat split.
Qed.

(** The creates of a run of the body, however it ends: none, the one of
    the file under October_2025/, or those of the nested invocation. *)
Lemma main_body_created (rec : string -> string -> M World unit)
    (item : entry) (s : nat) (w w1 : World) (o : outcome nat)
    (l1 : list main_event) :
  let name := item_name item in
  let target := root_target name in
  main_body remote_get remote_put rec item s w = Some (o, w1, l1) ->
  all_created_paths (calls_of l1) = [] \/
  all_created_paths (calls_of l1) = [target] \/
  (is_dir item = true /\
   exists o' body,
     rec name target w = Some (o', w1, body) /\
     all_created_paths (calls_of l1) = all_created_paths body).
Proof.
  intros name target. subst name target.
  destruct (eligible item) eqn:He.
  - rewrite (main_body_file _ _ _ _ He). cbn zeta.
    destruct (remote_get (item_name item) w) as [[status answer] w'].
    destruct (status =? 200)%Z.
    + destruct answer as [content sha|message].
      * destruct content as [|ch content].
        -- intros H. injection H as <- <- <-. now left.
        -- destruct (remote_put _ _ _ w') as [status' w2].
           destruct (status' =? 201)%Z; intros H; injection H as <- <- <-;
             right; now left.
      * intros H. injection H as <- <- <-. now left.
    + intros H. injection H as <- <- <-. now left.
  - destruct (is_dir item) eqn:Hd.
    + rewrite (main_body_dir _ _ _ _ He Hd). cbn zeta.
      destruct (rec _ _ w) as [[[[u|message] w'] body]|] eqn:R;
        [| |discriminate]; intros H; injection H as <- <- <-;
        right; right; (split; [reflexivity|]); do 2 eexists;
        (split; [reflexivity|]); cbn; apply app_nil_r.
    + rewrite (main_body_other _ _ _ _ He Hd).
      intros H. injection H as <- <- <-. now left.
Qed.

(** What the loop of [main] has done after the entries [contents], when
    it returns. *)
Lemma main_items_tally (rec : string -> string -> M World unit)
    (contents : list entry) :
  forall (s s' : nat) (w w' : World) (log : list main_event),
    main_items remote_get remote_put rec contents s w
    = Some (Returned s', w', log) ->
    fetched_paths (calls_of log)
    = map item_name (filter eligible contents) /\
    invoked (calls_of log)
    = map (fun e => (item_name e, root_target (item_name e)))
          (filter is_dir contents) /\
    count is_create (calls_of log) + count is_empty_fetch (calls_of log)
    = count eligible contents /\
    s' = s + count is_created (calls_of log) /\
    count is_error_line log = 0.
Proof.
  induction contents as [|item rest IH]; intros s s' w w' log H.
  - injection H as <- <- <-. cbn. repeat split; lia.
  - cbn [main_items] in H. apply main_bind_Some in H.
    destruct H as (s1 & w1 & l1 & l2 & H1 & H2 & ->).
    destruct (IH _ _ _ _ _ H2) as (If & Ii & Ic & Is & Ie).
    rewrite calls_of_app. unfold fetched_paths, invoked.
    rewrite !flat_map_app, !count_app.
    fold (fetched_paths (calls_of l2)) (invoked (calls_of l2)).
    rewrite If, Ii, Is, Ie.
    change (item :: rest) with ([item] ++ rest)%list.
    rewrite !filter_app, !map_app, !count_app.
    apply main_body_inv in H1.
    destruct H1 as [(He & -> & st & ->) | [(He & -> & sha & ->)
      | [(He & ct & sha & ok & l & Hn & -> & ->)
      | [(Hd & -> & body & R & ->) | (He & Hd & -> & _ & ->)]]]];
      try (pose proof (dir_not_eligible _ Hd) as He);
      try (assert (is_dir item = false) as Hd
             by (unfold eligible in He; apply andb_prop in He;
                 destruct He as [Hf _]; exact (file_not_dir _ Hf)));
      unfold count in *; cbn; rewrite ?He, ?Hd; cbn;
      try (destruct ct; [discriminate Hn|]); cbn;
      try (destruct ok); cbn; repeat split; lia.
Qed.

Section MainEnds.

Variable Inv : World -> Prop.

Hypothesis get_keeps :
  forall path w status answer w1,
    Inv w -> remote_get path w = (status, answer, w1) -> Inv w1.
Hypothesis put_keeps :
  forall path content message w status w1,
    Inv w -> remote_put path content message w = (status, w1) -> Inv w1.


End MainEnds.

(** The [try] of [main] with its configuration, after the listing of the
    root: an exception leaves it with the log so far. *)
Lemma main_try_run (depth : nat) (env_token env_repo : option string)
    (r : GitHubReplicator) (w w1 : World) (contents : list entry)
    (l0 : list call) :
  init env_token env_repo = inr r ->
  get_folder_contents remote_list "" w = Some (Returned contents, w1, l0) ->
  let opening := [Say (RepositoryLine (repo r));
                  Say (ApiBaseLine (base_url r)); Say StartingRoot] in
  main_try remote_list remote_get remote_put depth env_token env_repo w
  = match contents with
    | [] =>
        Some (Returned tt, w1,
              (opening ++ map Did l0 ++ [Say NoContentsInRoot])%list)
    | _ :: _ =>
        match main_items remote_get remote_put
                (replicate_folder remote_list remote_get remote_put depth)
                contents 0 w1 with
        | Some (Returned s, w2, l1) =>
            Some (Returned tt, w2,
                  (opening ++ map Did l0 ++ l1
                   ++ [Say CompletedRoot;
                       Say (FilesProcessed s (List.length contents))])%list)
        | Some (Raised message, w2, l1) =>
            Some (Raised message, w2, (opening ++ map Did l0 ++ l1)%list)
        | None => None
        end
    end.
Proof.
  intros Hi G opening. subst opening. unfold main_try. rewrite Hi.
  unfold main_bind, say, lift. rewrite G.
  destruct contents as [|item rest]; [reflexivity|].
  destruct (main_items _ _ _ _ _ w1) as [[[[s|message] w2] l1]|];
    reflexivity.
Qed.

(** A run of [main] is the run of its [try], with the error line after
    it when an exception has left the [try]. *)
Lemma main_inv (depth : nat) (env_token env_repo : option string)
    (w w' : World) (log : list main_event) :
  main remote_list remote_get remote_put depth env_token env_repo w
  = Some (tt, w', log) ->
  main_try remote_list remote_get remote_put depth env_token env_repo w
  = Some (Returned tt, w', log) \/
  exists message l,
    main_try remote_list remote_get remote_put depth env_token env_repo w
    = Some (Raised message, w', l) /\
    log = (l ++ [Say (ErrorLine message)])%list.
Proof.
  unfold main.
  destruct (main_try _ _ _ _ _ _ w) as [[[[[]|message] w0] l]|];
    [| |discriminate]; intros H; injection H as <- <-.
  - now left.
  - right. now exists message, l.
Qed.

Lemma count_error_line_app (l : list main_event) (message : string) :
  count is_error_line (l ++ [Say (ErrorLine message)])%list <> 0.
Proof. rewrite count_app. unfold count at 2. simpl. lia. Qed.

Lemma listing_fetches_nothing (path : string) (w w1 : World)
    (contents : list entry) (l0 : list call) :
  get_folder_contents remote_list path w
  = Some (Returned contents, w1, l0) ->
  fetched_paths l0 = [].
Proof.
  rewrite get_folder_contents_run.
  destruct (remote_list path w) as [[status entries] w0].
  destruct (status =? 200)%Z; [|destruct (status =? 404)%Z];
    intros G; injection G as <- <- <-; reflexivity.
Qed.

(** The loop of [main] logs calls and announcements only, however it
    ends: no closing line and no error line. *)
Lemma main_items_events (rec : string -> string -> M World unit)
    (contents : list entry) :
  forall (s : nat) (o : outcome nat) (w w' : World)
         (log : list main_event),
    main_items remote_get remote_put rec contents s w = Some (o, w', log) ->
    Forall (fun e => is_loop_event e = true) log.
Proof.
  assert (forall item s w o w1 l1,
            main_body remote_get remote_put rec item s w
            = Some (o, w1, l1) ->
            Forall (fun e => is_loop_event e = true) l1) as Hbody.
  { intros item s w o w1 l1. destruct (eligible item) eqn:He.
    - rewrite (main_body_file _ _ _ _ He). cbn zeta.
      destruct (remote_get (item_name item) w) as [[status answer] w0].
      destruct (status =? 200)%Z.
      + destruct answer as [content sha|message].
        * destruct content as [|ch content].
          -- intros H. injection H as <- <- <-. now repeat constructor.
          -- destruct (remote_put _ _ _ w0) as [status' w2].
             destruct (status' =? 201)%Z; intros H;
               injection H as <- <- <-; now repeat constructor.
        * intros H. injection H as <- <- <-. now repeat constructor.
      + intros H. injection H as <- <- <-. now repeat constructor.
    - destruct (is_dir item) eqn:Hd.
      + rewrite (main_body_dir _ _ _ _ He Hd). cbn zeta.
        destruct (rec _ _ w) as [[[[u|message] w0] body]|];
          [| |discriminate]; intros H; injection H as <- <- <-;
          now repeat constructor.
      + rewrite (main_body_other _ _ _ _ He Hd).
        intros H. injection H as <- <- <-. constructor. }
  induction contents as [|item rest IH]; intros s o w w' log H.
  - injection H as <- <- <-. constructor.
  - cbn [main_items] in H. apply main_bind_ends in H.
    destruct H as [(s1 & w1 & l1 & l2 & H1 & H2 & ->) | (message & H1 & _)].
    + apply Forall_app. split; [eapply Hbody | eapply IH]; eassumption.
    + eapply Hbody; eassumption.
Qed.

Lemma loop_events_no_error (l : list main_event) :
  Forall (fun e => is_loop_event e = true) l -> count is_error_line l = 0.
Proof.
  unfold count. induction 1 as [|e l He _ IH]; [reflexivity|].
  cbn [filter]. destruct e as [[]|c]; try discriminate He; exact IH.
Qed.

Lemma calls_no_error (l : list call) : count is_error_line (map Did l) = 0.
Proof.
  unfold count. induction l as [|c l IH]; [reflexivity | exact IH].
Qed.

Lemma created_le_create (l : list call) :
  count is_created l <= count is_create l.
Proof.
  unfold count. induction l as [|c l IH]; [reflexivity|].
  destruct c as [| | p ct m [|] | | |]; cbn in *; lia.
Qed.

End MainFacts.

Section MainClaims.

Context {World : Type}.
Variable remote_list : string -> World -> Z * list entry * World.
Variable remote_get : string -> World -> Z * payload * World.
Variable remote_put : string -> string -> string -> World -> Z * World.

Lemma init_configured (env_token env_repo : option string) :
  missing env_token || missing env_repo = false ->
  exists r, init env_token env_repo = inr r.
Proof.
  intros H. apply orb_false_elim in H. destruct H as [Ht Hr].
  destruct env_token as [[|a t]|]; try discriminate Ht.
  destruct env_repo as [[|b r]|]; try discriminate Hr.
  eexists. reflexivity.
Qed.

(** X6: the walk writes under its target folder only.  On a store that
    lists, under a folder, paths that extend the folder's path, every
    create call of an invocation on a non-empty source folder, and of all
    the invocations nested in it, is on a path that starts with the target
    folder; this holds of a walk that returns and of one that an exception
    has ended. *)
Theorem replicate_folder_writes_under_target (depth : nat)
    (source_folder target_folder : string) (w w' : World)
    (o : outcome unit) (log : list call) :
  (forall path w0 entries w1 e,
     remote_list path w0 = (200%Z, entries, w1) ->
     In e entries -> prefix path (item_path e) = true) ->
  nonempty source_folder = true ->
  replicate_folder remote_list remote_get remote_put depth
    source_folder target_folder w = Some (o, w', log) ->
  Forall (fun p => prefix target_folder p = true) (all_created_paths log).
Proof.
  intros L Hn H.
  eapply (replicate_folder_created_under remote_list remote_get remote_put L);
    [|exact H].
  intros ->. discriminate Hn.
Qed.

(** X7: without its configuration [main] makes no request.  When
    GITHUB_TOKEN or GITHUB_REPOSITORY is unset or empty, the run is one
    error line, which names the token when both are missing, and the
    store is as it was. *)
Theorem main_without_configuration (depth : nat)
    (env_token env_repo : option string) (w : World) :
  missing env_token || missing env_repo = true ->
  main remote_list remote_get remote_put depth env_token env_repo w
  = Some
      (tt, w,
       [Say (ErrorLine
               (if missing env_token
                then "GITHUB_TOKEN not found in environment variables"
                else "GITHUB_REPOSITORY not found in environment variables"))]).
Proof.
  intros H. unfold main, main_try.
  destruct env_token as [[|a t]|]; try reflexivity.
  destruct env_repo as [[|b r]|]; try reflexivity.
  discriminate H.
Qed.

(** X8: what [main] replicates.  A run of [main] that prints no error
    line (no exception has left the [try]: the configuration is there,
    every fetched file that was answered 200 has decoded as text, and
    every nested invocation has returned) has fetched the root files other
    than .gitignore and README.md, each once, by name and in the order of
    the listing; it has invoked [replicate_folder] once per root
    directory, from its name to October_2025/name; and each fetch that
    returned some content is followed by one create. *)
Theorem main_replicates_root (depth : nat)
    (env_token env_repo : option string) (w w1 w' : World)
    (contents : list entry) (l0 : list call) (log : list main_event) :
  get_folder_contents remote_list "" w = Some (Returned contents, w1, l0) ->
  main remote_list remote_get remote_put depth env_token env_repo w
  = Some (tt, w', log) ->
  count is_error_line log = 0 ->
  fetched_paths (calls_of log)
  = map item_name (filter eligible contents) /\
  invoked (calls_of log)
  = map (fun e => (item_name e, root_target (item_name e)))
        (filter is_dir contents) /\
  count is_create (calls_of log) + count is_empty_fetch (calls_of log)
  = count eligible contents.
Proof.
  intros G H E. apply main_inv in H.
  destruct H as [H | (message & l & _ & ->)];
    [|now apply count_error_line_app in E].
  destruct (init env_token env_repo) as [message|r] eqn:Hi;
    [unfold main_try in H; rewrite Hi in H; discriminate H|].
  rewrite (main_try_run remote_list remote_get remote_put
             _ _ _ _ _ _ _ _ Hi G) in H.
  cbn zeta in H.
  destruct (get_folder_contents_log remote_list "" w)
    as (contents' & w1' & l0' & G' & _ & _ & E0 & C0 & _ & _ & I0).
  rewrite G in G'. injection G' as <- <- <-.
  pose proof (listing_fetches_nothing remote_list _ _ _ _ _ G) as F0.
  destruct contents as [|item rest].
  - injection H as <- <-.
    rewrite !calls_of_say, calls_of_app, calls_of_did.
    cbn [calls_of flat_map app].
    rewrite app_nil_r. now rewrite F0, I0, E0, C0.
  - destruct (main_items _ _ _ _ _ w1) as [[[[s|message] w2] l1]|] eqn:M;
      [|discriminate|discriminate].
    injection H as <- <-.
    destruct (main_items_tally remote_get remote_put _ _ _ _ _ _ _ M)
      as (Tf & Ti & Tc & _).
    rewrite !calls_of_say, !calls_of_app, calls_of_did.
    cbn [calls_of flat_map app].
    rewrite app_nil_r. unfold fetched_paths, invoked.
    rewrite !flat_map_app, !count_app.
    fold (fetched_paths l0) (invoked l0)
      (fetched_paths (calls_of l1)) (invoked (calls_of l1)).
    rewrite F0, I0, E0, C0, Tf, Ti. cbn [app]. repeat split. lia.
Qed.

(** X9: the last line of [main].  With the configuration there and a
    root listing that is not empty, a run of [main] ends in one of two
    lines.  When an exception has left the [try], the last line is the
    error line with its message, and no summary is printed.  Otherwise the
    last two lines are the closing ones, and the summary reports the
    creates of the root level that succeeded over the number of all the
    root entries: the first is at most the number of the root files other
    than .gitignore and README.md, so with a directory, an excluded file
    or an entry of another kind in the root the line never reports all of
    them done. *)
Theorem main_summary (depth : nat)
    (env_token env_repo : option string) (w w1 w' : World)
    (contents : list entry) (l0 : list call) (log : list main_event) :
  missing env_token || missing env_repo = false ->
  get_folder_contents remote_list "" w = Some (Returned contents, w1, l0) ->
  contents <> [] ->
  main remote_list remote_get remote_put depth env_token env_repo w
  = Some (tt, w', log) ->
  (exists message l,
     log = (l ++ [Say (ErrorLine message)])%list /\
     count is_error_line l = 0 /\
     forall s t, ~ In (Say (FilesProcessed s t)) l) \/
  (exists l s,
     log = (l ++ [Say CompletedRoot;
                  Say (FilesProcessed s (List.length contents))])%list /\
     count is_error_line log = 0 /\
     s = count is_created (calls_of l) /\
     s <= count eligible contents /\
     ((exists e, In e contents /\ eligible e = false) ->
      s < List.length contents)).
Proof.
  intros Hc G Hne H. destruct (init_configured _ _ Hc) as (r & Hi).
  destruct (get_folder_contents_log remote_list "" w)
    as (contents' & w1' & l0' & G' & _ & _ & _ & _ & D0 & _).
  rewrite G in G'. injection G' as <- <- <-.
  destruct contents as [|item rest]; [congruence|].
  pose proof (main_try_run remote_list remote_get remote_put depth
                _ _ _ _ _ _ _ Hi G) as T. cbn zeta in T.
  destruct (main_items _ _ _ _ _ w1) as [[[[s|message] w2] l1]|] eqn:M.
  - right. unfold main in H. rewrite T in H. injection H as <- <-.
    destruct (main_items_tally remote_get remote_put _ _ _ _ _ _ _ M)
      as (_ & _ & Tc & Ts & Te).
    pose proof (created_le_create (calls_of l1)) as Hle.
    exists ([Say (RepositoryLine (repo r)); Say (ApiBaseLine (base_url r));
             Say StartingRoot] ++ map Did l0 ++ l1)%list, s.
    split; [now rewrite <- !app_assoc|].
    split.
    { change (count is_error_line
                (map Did l0 ++ l1 ++
                 [Say CompletedRoot;
                  Say (FilesProcessed s (List.length (item :: rest)))])%list
              = 0).
      rewrite !count_app, calls_no_error, Te. reflexivity. }
    rewrite !calls_of_app, calls_of_did. cbn [calls_of flat_map app].
    rewrite count_app, D0. cbn [Nat.add] in *.
    split; [exact Ts|]. split; [lia|].
    intros (e & I & He).
    pose proof (count_lt_length eligible _ e I He). lia.
  - left. unfold main in H. rewrite T in H. injection H as <- <-.
    pose proof (main_items_events remote_get remote_put _ _ _ _ _ _ _ M)
      as Ev.
    exists message,
      ([Say (RepositoryLine (repo r)); Say (ApiBaseLine (base_url r));
        Say StartingRoot] ++ map Did l0 ++ l1)%list.
    split; [reflexivity|]. split.
    + rewrite !count_app, calls_no_error, (loop_events_no_error _ Ev).
      reflexivity.
    + intros s t I. cbn [app] in I.
      destruct I as [I|[I|[I|I]]]; try discriminate I.
      apply in_app_or in I. destruct I as [I|I].
      * apply in_map_iff in I. destruct I as (c & E & _). discriminate E.
      * rewrite Forall_forall in Ev. apply Ev in I. discriminate I.
  - unfold main in H. rewrite T in H. discriminate H.
Qed.

(** The creates of the loop of [main], nested ones included, are under
    October_2025/, however the loop ends. *)
Lemma main_items_created_under (rec : string -> string -> M World unit)
    (contents : list entry) :
  (forall s d w o w' body,
     s <> "" -> rec s d w = Some (o, w', body) ->
     Forall (fun p => prefix d p = true) (all_created_paths body)) ->
  forall (s : nat) (o : outcome nat) (w w' : World)
         (log : list main_event),
    (forall e, In e contents -> is_dir e = true ->
       nonempty (item_name e) = true) ->
    main_items remote_get remote_put rec contents s w = Some (o, w', log) ->
    Forall (fun p => prefix "October_2025/" p = true)
           (all_created_paths (calls_of log)).
Proof.
  intros Hrec.
  assert (forall item s w o w1 l1,
            (is_dir item = true -> nonempty (item_name item) = true) ->
            main_body remote_get remote_put rec item s w
            = Some (o, w1, l1) ->
            Forall (fun p => prefix "October_2025/" p = true)
                   (all_created_paths (calls_of l1))) as Hbody.
  { intros item s w o w1 l1 Hn H. apply main_body_created in H.
    destruct H as [-> | [-> | (Hd & o' & body & R & ->)]].
    - constructor.
    - constructor; [|constructor]. apply (prefix_append "October_2025/").
    - apply Hrec in R.
      + eapply Forall_impl; [|exact R]. intros p Hp. cbn beta in Hp.
        eapply prefix_trans; [|exact Hp].
        apply (prefix_append "October_2025/").
      + intros E. specialize (Hn Hd). rewrite E in Hn. discriminate Hn. }
  induction contents as [|item rest IH]; intros s o w w' log Hn H.
  - injection H as <- <- <-. constructor.
  - cbn [main_items] in H. apply main_bind_ends in H.
    destruct H as [(s1 & w1 & l1 & l2 & H1 & H2 & ->) | (message & H1 & _)].
    + rewrite calls_of_app. unfold all_created_paths.
      rewrite flat_map_app. apply Forall_app. split.
      * eapply Hbody; [|exact H1]. apply Hn. now left.
      * eapply IH; [|exact H2]. intros e I. apply Hn. now right.
    + eapply Hbody; [|exact H1]. apply Hn. now left.
Qed.

(** X10: [main] writes under October_2025/ only.  On a store that lists,
    under a folder, paths that extend the folder's path, and whose root
    directories have a name, every create call of a run of [main], at the
    root and in all the nested invocations, is on a path that starts with
    October_2025/. *)
Theorem main_writes_under_october (depth : nat)
    (env_token env_repo : option string) (w w1 w' : World)
    (contents : list entry) (l0 : list call) (log : list main_event) :
  (forall path w0 entries w2 e,
     remote_list path w0 = (200%Z, entries, w2) ->
     In e entries -> prefix path (item_path e) = true) ->
  get_folder_contents remote_list "" w = Some (Returned contents, w1, l0) ->
  (forall e, In e contents -> is_dir e = true ->
     nonempty (item_name e) = true) ->
  main remote_list remote_get remote_put depth env_token env_repo w
  = Some (tt, w', log) ->
  Forall (fun p => prefix "October_2025/" p = true)
         (all_created_paths (calls_of log)).
Proof.
  intros L G Hn H.
  assert (forall o l,
            main_try remote_list remote_get remote_put depth
              env_token env_repo w = Some (o, w', l) ->
            Forall (fun p => prefix "October_2025/" p = true)
                   (all_created_paths (calls_of l))) as Htry.
  { intros o l T.
    destruct (init env_token env_repo) as [message|r] eqn:Hi.
    - unfold main_try in T. rewrite Hi in T. injection T as <- <- <-.
      constructor.
    - rewrite (main_try_run remote_list remote_get remote_put
                 _ _ _ _ _ _ _ _ Hi G) in T. cbn zeta in T.
      pose proof (get_folder_contents_creates_nothing _ _ _ _ _ _ G) as C0.
      destruct contents as [|item rest].
      + injection T as <- <- <-.
        rewrite !calls_of_say, calls_of_app, calls_of_did, calls_of_say.
        cbn [calls_of flat_map]. rewrite app_nil_r, C0. constructor.
      + assert (forall o1 w2 l1,
                  main_items remote_get remote_put
                    (replicate_folder remote_list remote_get remote_put
                       depth) (item :: rest) 0 w1 = Some (o1, w2, l1) ->
                  Forall (fun p => prefix "October_2025/" p = true)
                         (all_created_paths (calls_of l1))) as Hitems.
        { intros o1 w2 l1 M.
          eapply main_items_created_under; [| exact Hn | exact M].
          intros s0 d w0 o0 w0' body Hs R.
          eapply (replicate_folder_created_under remote_list remote_get
                    remote_put L); eassumption. }
        destruct (main_items _ _ _ _ _ w1) as [[[[s|message] w2] l1]|] eqn:M;
          [| |discriminate]; injection T as <- <- <-;
          rewrite !calls_of_say, !calls_of_app, calls_of_did,
            ?calls_of_say;
          cbn [calls_of flat_map]; rewrite ?app_nil_r;
          unfold all_created_paths in *;
          rewrite flat_map_app, C0; cbn [app];
          eapply Hitems; reflexivity. }
  apply main_inv in H. destruct H as [H | (message & l & H & ->)].
  - eapply Htry; exact H.
  - rewrite calls_of_app. cbn [calls_of flat_map]. rewrite app_nil_r.
    eapply Htry; exact H.
Qed.


(* ----------------------------------------------------------------- *)
(** *** The diagnostic *)

Lemma probe_log (paths : list string) :
  forall w : World,
    let log := snd (probe remote_list paths w) in
    probed log = paths /\
    count is_request log = List.length paths /\
    shown log = [] /\ announced log = [].
Proof.
  induction paths as [|path rest IH]; intros w; [now repeat split|].
  cbn [probe]. destruct (remote_list path w) as [[status entries] w1].
  specialize (IH w1). destruct (probe remote_list rest w1) as [w2 log].
  cbn [snd] in *. destruct IH as (Ip & Ic & Is & Ia).
  unfold probed, shown, announced, count in *.
  cbn [flat_map filter is_request app List.length].
  rewrite Ip, Ic, Is, Ia. now repeat split.
Qed.

(** X11: the requests of [debug_repository].  When the request for the
    root is answered 200 it is followed by one request for each of the
    five candidate folders, in their order; otherwise the diagnostic ends
    there, with that one request. *)
Theorem debug_repository_requests (w w1 : World) (status : Z)
    (contents : list entry) :
  remote_list "" w = (status, contents, w1) ->
  let log := snd (debug_repository remote_list w) in
  if (status =? 200)%Z
  then count is_request log = 6 /\ probed log = potential_paths
  else count is_request log = 1 /\ probed log = [].
Proof.
  intros Hl log. subst log. unfold debug_repository. rewrite Hl.
  destruct (status =? 200)%Z.
  - pose proof (probe_log potential_paths w1) as P.
    destruct (probe remote_list potential_paths w1) as [w2 probes].
    cbn [snd] in *. destruct P as (Pp & Pc & _).
    unfold count, probed in *. cbn [app filter flat_map is_request].
    rewrite !filter_app, !flat_map_app.
    assert (forall l : list entry,
              filter is_request
                (map (fun item =>
                        DebugPrint (RootItem (is_dir item) (item_name item)))
                     l) = []
              /\ flat_map (fun e => match e with
                                    | ProbeRequest path _ => [path]
                                    | _ => []
                                    end)
                   (map (fun item =>
                           DebugPrint (RootItem (is_dir item)
                                         (item_name item))) l) = [])
      as Hm by (induction l as [|x l [I1 I2]]; cbn; [now split|];
                now rewrite I1, I2).
    destruct (Hm (firstn 10 contents)) as (-> & ->).
    destruct (10 <? List.length contents)%nat;
      cbn [app filter flat_map is_request List.length];
      rewrite Pp, Pc; now split.
  - cbn [snd]. destruct (status =? 401)%Z; [now split|].
    destruct (status =? 404)%Z; now split.
Qed.

(** X12: the listing [debug_repository] prints.  The lines show the first
    ten entries of the root, in order; one more line announces the rest
    when there are more than ten; the entries shown and the entries
    announced are all the entries. *)
Theorem debug_repository_listing (w w1 : World) (contents : list entry) :
  remote_list "" w = (200%Z, contents, w1) ->
  let log := snd (debug_repository remote_list w) in
  shown log
  = map (fun item => (is_dir item, item_name item)) (firstn 10 contents) /\
  announced log
  = (if (10 <? List.length contents)%nat
     then [List.length contents - 10] else []) /\
  List.length (shown log) + list_sum (announced log)
  = List.length contents.
Proof.
  intros Hl log. subst log. unfold debug_repository. rewrite Hl.
  cbn [Z.eqb Pos.eqb].
  pose proof (probe_log potential_paths w1) as P.
  destruct (probe remote_list potential_paths w1) as [w2 probes].
  cbn [snd] in *. destruct P as (_ & _ & Ps & Pa).
  unfold shown, announced in *. cbn [app flat_map].
  rewrite !flat_map_app. cbn [flat_map app]. rewrite Ps, Pa.
  assert (forall l : list entry,
            flat_map (fun e => match e with
                               | DebugPrint (RootItem dir name) =>
                                   [(dir, name)]
                               | _ => []
                               end)
              (map (fun item =>
                      DebugPrint (RootItem (is_dir item) (item_name item)))
                 l)
            = map (fun item => (is_dir item, item_name item)) l
            /\ flat_map (fun e => match e with
                                  | DebugPrint (MoreItems n) => [n]
                                  | _ => []
                                  end)
                 (map (fun item =>
                         DebugPrint (RootItem (is_dir item) (item_name item)))
                    l) = [])
    as Hm by (induction l as [|x l [I1 I2]]; cbn; [now split|];
              now rewrite I1, I2).
  destruct (Hm (firstn 10 contents)) as (-> & ->).
  rewrite !app_nil_r. cbn [app].
  destruct (10 <? List.length contents)%nat eqn:Hlt; cbn [flat_map app];
    rewrite ?app_nil_r; repeat split;
    rewrite length_map, length_firstn; unfold list_sum; cbn [fold_right].
  - apply Nat.ltb_lt in Hlt. lia.
  - apply Nat.ltb_ge in Hlt. lia.
Qed.

End MainClaims.

(* ----------------------------------------------------------------- *)
(** *** The mapping along the recursion *)

Lemma prefix_append_l (a b s : string) :
  prefix (a ++ b) s = true -> prefix a s = true.
Proof. apply prefix_trans, prefix_append. Qed.

Lemma prefix_append_r (p a b : string) :
  prefix p a = true -> prefix p (a ++ b) = true.
Proof.
  intros H. apply prefix_split in H. rewrite H, append_assoc.
  apply prefix_append.
Qed.

Lemma contains_longer (p q s : string) :
  contains p s = false -> contains (p ++ q) s = false.
Proof.
  induction s as [|c s IH]; cbn [contains]; intros H;
    apply orb_false_elim in H; destruct H as [P H].
  - rewrite orb_false_r.
    destruct (prefix (p ++ q) "") eqn:E; [|reflexivity].
    apply prefix_append_l in E. congruence.
  - rewrite (IH H), orb_false_r.
    destruct (prefix (p ++ q) (String c s)) eqn:E; [|reflexivity].
    apply prefix_append_l in E. congruence.
Qed.

Lemma contains_app_l (p a b : string) :
  contains p (a ++ b) = false -> contains p a = false.
Proof.
  induction a as [|c a IH]; cbn [contains append]; intros H.
  - rewrite orb_false_r.
    destruct (prefix p "") eqn:E; [|reflexivity].
    destruct p; [|discriminate E]. now destruct b.
  - apply orb_false_elim in H. destruct H as [P H].
    rewrite (IH H), orb_false_r.
    destruct (prefix p (String c a)) eqn:E; [|reflexivity].
    apply (prefix_append_r _ _ b) in E. cbn [append] in E. congruence.
Qed.

Lemma contains_app_r (p a b : string) :
  contains p (a ++ b) = false -> contains p b = false.
Proof.
  induction a as [|c a IH]; cbn [append]; intros H; [exact H|].
  cbn [contains] in H. apply orb_false_elim in H. now apply IH.
Qed.

(** X1: a path under the source folder is mapped to the target folder
    followed by the same remainder, when the source folder is not empty
    and does not occur in the remainder; the mapped path is then under the
    target folder. *)
Theorem map_path_of_clean_suffix (source_folder target_folder suffix : string) :
  nonempty source_folder = true ->
  contains source_folder suffix = false ->
  let target_path :=
    replace (source_folder ++ suffix) source_folder target_folder in
  target_path = target_folder ++ suffix /\
  prefix target_folder target_path = true.
Proof.
  intros Hn Hc target_path. subst target_path.
  rewrite map_path_keeps_suffix; [split; [reflexivity | apply prefix_append]
                                 | intros ->; discriminate Hn | exact Hc].
Qed.

(** X13: the mapping composes along the recursion.  For a folder of the
    source tree and an entry under it, when the source folder is not
    empty and does not occur in the path relative to it, the nested
    invocation gets the target folder followed by the relative path of the
    folder, and maps the entry to the target folder followed by the
    relative path of the entry: the relative depth is kept. *)
Theorem nested_mapping_keeps_relative_path
    (source_folder target_folder a b : string) :
  nonempty source_folder = true ->
  contains source_folder (a ++ b) = false ->
  let sub_source := source_folder ++ a in
  let sub_target := replace sub_source source_folder target_folder in
  sub_target = target_folder ++ a /\
  replace (sub_source ++ b) sub_source sub_target = target_folder ++ a ++ b.
Proof.
  intros Hn Hc sub_source sub_target.
  assert (source_folder <> "") as Hs by (intros ->; discriminate Hn).
  assert (sub_target = target_folder ++ a) as Ht.
  { apply map_path_keeps_suffix; [exact Hs|].
    exact (contains_app_l _ _ _ Hc). }
  split; [exact Ht|]. rewrite Ht.
  rewrite map_path_keeps_suffix.
  - apply append_assoc.
  - subst sub_source. destruct source_folder; [congruence | discriminate].
  - apply contains_longer. exact (contains_app_r _ _ _ Hc).
Qed.

(* ================================================================= *)
(** ** The whole walk on the stores *)

Lemma demo_listed_under (path : string) (w : Demo.World)
    (entries : list entry) (w1 : Demo.World) (e : entry) :
  Demo.remote_list path w = (200%Z, entries, w1) ->
  In e entries -> prefix path (item_path e) = true.
Proof.
  unfold Demo.remote_list. intros L I.
  destruct (path =? "reports") eqn:E1.
  - apply String.eqb_eq in E1. subst path. injection L as <- _.
    simpl in I. repeat (destruct I as [<-|I]; [reflexivity|]).
    contradiction.
  - destruct (path =? "reports/2025") eqn:E2.
    + apply String.eqb_eq in E2. subst path. injection L as <- _.
      destruct I as [<-|[]]. reflexivity.
    + destruct (path =? "void"); [|discriminate L].
      injection L as <- _. contradiction.
Qed.


Lemma rooted_listed_under (path : string) (w : Demo.World)
    (entries : list entry) (w1 : Demo.World) (e : entry) :
  Rooted.remote_list path w = (200%Z, entries, w1) ->
  In e entries -> prefix path (item_path e) = true.
Proof.
  unfold Rooted.remote_list. destruct (path =? "") eqn:E.
  - apply String.eqb_eq in E. subst path. intros _ _.
    now destruct (item_path e).
  - apply demo_listed_under.
Qed.



Lemma cyclic_get_decodes (path : string) (w0 : unit) (message : string)
    (w1 : unit) :
  Cyclic.remote_get path w0 <> (200%Z, Undecodable message, w1).
Proof. discriminate. Qed.

(** On the store with the image, [main] stops at the image, the first
    entry of the root: the run ends with the error line, the second file
    is not fetched, and nothing is created. *)
Lemma binary_main_stops :
  Binary.main 1 (Some "secret") (Some "owner/repo") []
  = Some (tt, [],
          [Say (RepositoryLine "owner/repo");
           Say (ApiBaseLine "https://api.github.com/repos/owner/repo");
           Say StartingRoot;
           Did (GetFolderContents "" Binary.root);
           Say (Replicating "logo.png" "October_2025/logo.png");
           Did (FetchRaised "logo.png" Binary.cannot_decode);
           Say (ErrorLine Binary.cannot_decode)]).
Proof. vm_compute. reflexivity. Qed.

Lemma map_path_of_clean_suffix_witness :
  replace ("reports" ++ "/2025/oct.txt") "reports" "October_2025/reports"
  = "October_2025/reports" ++ "/2025/oct.txt" /\
  prefix "October_2025/reports"
    (replace ("reports" ++ "/2025/oct.txt") "reports" "October_2025/reports")
  = true.
Proof.
  apply (map_path_of_clean_suffix "reports" "October_2025/reports"
           "/2025/oct.txt"); reflexivity.
Defined.

Lemma empty_file_is_skipped_witness :
  Demo.loop_body (Demo.replicate_folder 1) "reports" "October_2025/reports"
    {| item_name := "empty.txt"; item_path := "reports/empty.txt";
       item_type := "file" |}
    {| success_count := 1; total_count := 5 |} Demo.initial
  = Some (Returned {| success_count := 1; total_count := 6 |}, Demo.initial,
          [Print (ProcessingFile "reports/empty.txt");
           GetFileContent "reports/empty.txt" "" "sha-e"]).
Proof.
  apply (empty_file_is_skipped Demo.remote_get Demo.remote_put
           (Demo.replicate_folder 1) "reports" "October_2025/reports"
           {| item_name := "empty.txt"; item_path := "reports/empty.txt";
              item_type := "file" |}
           {| success_count := 1; total_count := 5 |}
           Demo.initial Demo.initial "sha-e");
    [reflexivity | vm_compute; reflexivity].
Defined.

Lemma replicate_folder_summary_witness :
  exists l,
    Demo.run_log
    = (l ++ [Print (Completed (count is_created Demo.run_log)
                      (List.length Demo.reports))])%list.
Proof.
  eapply (replicate_folder_summary Demo.remote_list Demo.remote_get
            Demo.remote_put 2 "reports" "October_2025/reports" Demo.initial);
    [vm_compute; reflexivity | discriminate | vm_compute; reflexivity].
Defined.


Lemma replicate_folder_never_returns_witness :
  replicate_folder Cyclic.remote_list Cyclic.remote_get Cyclic.remote_put 7
    "reports" "October_2025/reports" tt = None.
Proof.
  refine (proj2 (replicate_folder_never_returns Cyclic.remote_list
                   Cyclic.remote_get Cyclic.remote_put (fun _ => True) 7
                   "reports" "October_2025/reports" tt _ I)
            cyclic_get_decodes).
  intros path w0 _.
  exists [ {| item_name := "self"; item_path := path; item_type := "dir" |} ],
    w0, {| item_name := "self"; item_path := path; item_type := "dir" |}.
  repeat split. now left.
Defined.

Lemma replicate_folder_writes_under_target_witness :
  Forall (fun p => prefix "October_2025/reports" p = true)
         (all_created_paths Demo.run_log).
Proof.
  eapply (replicate_folder_writes_under_target Demo.remote_list
            Demo.remote_get Demo.remote_put 2 "reports"
            "October_2025/reports" Demo.initial);
    [exact demo_listed_under | reflexivity | vm_compute; reflexivity].
Defined.

Lemma main_without_configuration_witness :
  Rooted.main 2 None (Some "owner/repo") Demo.initial
  = Some (tt, Demo.initial,
          [Say (ErrorLine
                  "GITHUB_TOKEN not found in environment variables")]).
Proof.
  apply (main_without_configuration Rooted.remote_list Rooted.remote_get
           Demo.remote_put 2 None (Some "owner/repo") Demo.initial).
  reflexivity.
Defined.

Lemma main_replicates_root_witness :
  fetched_paths (calls_of Rooted.run_log)
  = map item_name (filter eligible Rooted.root) /\
  invoked (calls_of Rooted.run_log)
  = map (fun e => (item_name e, root_target (item_name e)))
        (filter is_dir Rooted.root) /\
  count is_create (calls_of Rooted.run_log)
  + count is_empty_fetch (calls_of Rooted.run_log)
  = count eligible Rooted.root.
Proof.
  eapply (main_replicates_root Rooted.remote_list Rooted.remote_get
            Demo.remote_put 2 (Some "secret") (Some "owner/repo")
            Demo.initial Demo.initial _ Rooted.root
            [GetFolderContents "" Rooted.root] Rooted.run_log);
    vm_compute; reflexivity.
Defined.

Lemma main_summary_witness :
  exists l s,
    Rooted.run_log
    = (l ++ [Say CompletedRoot;
             Say (FilesProcessed s (List.length Rooted.root))])%list /\
    s = count is_created (calls_of l) /\
    s <= count eligible Rooted.root /\
    ((exists e, In e Rooted.root /\ eligible e = false) ->
     s < List.length Rooted.root).
Proof.
  assert (exists w',
            main Rooted.remote_list Rooted.remote_get Demo.remote_put 2
              (Some "secret") (Some "owner/repo") Demo.initial
            = Some (tt, w', Rooted.run_log))
    as (w' & R) by (eexists; vm_compute; reflexivity).
  destruct (main_summary Rooted.remote_list Rooted.remote_get
              Demo.remote_put 2 (Some "secret") (Some "owner/repo")
              Demo.initial Demo.initial w' Rooted.root
              [GetFolderContents "" Rooted.root] Rooted.run_log)
    as [(message & l & E & _) | (l & s & E & _ & H)].
  - reflexivity.
  - vm_compute; reflexivity.
  - discriminate.
  - exact R.
  - exfalso. apply (count_error_line_app l message). rewrite <- E.
    vm_compute. reflexivity.
  - exists l, s. split; [exact E | exact H].
Defined.

Lemma main_writes_under_october_witness :
  Forall (fun p => prefix "October_2025/" p = true)
         (all_created_paths (calls_of Rooted.run_log)).
Proof.
  eapply (main_writes_under_october Rooted.remote_list Rooted.remote_get
            Demo.remote_put 2 (Some "secret") (Some "owner/repo")
            Demo.initial Demo.initial _ Rooted.root
            [GetFolderContents "" Rooted.root] Rooted.run_log).
  - exact rooted_listed_under.
  - vm_compute; reflexivity.
  - intros e I D. simpl in I.
    repeat (destruct I as [<-|I]; [try discriminate D; reflexivity|]).
    contradiction.
  - vm_compute; reflexivity.
Defined.


Lemma replicate_folder_raised_calls_witness :
  exists (done : list entry) (item : entry) (rest : list entry)
         (l1 l2 : list call),
    Binary.assets = (done ++ item :: rest)%list /\
    Binary.run_log
    = (Print (StartingReplication "assets" "October_2025/assets")
       :: [GetFolderContents "assets" Binary.assets] ++ l1 ++ l2)%list /\
    count is_fetch l1 = count is_file done /\
    count is_create l1 + count is_empty_fetch l1 = count is_file done /\
    invoked l1
    = map (fun e => (item_path e,
                     replace (item_path e) "assets" "October_2025/assets"))
          (filter is_dir done) /\
    (is_file item = true /\
     l2 = [Print (ProcessingFile (item_path item));
           FetchRaised (item_path item) Binary.cannot_decode] \/
     is_dir item = true /\
     exists body,
       l2 = [Print (ProcessingDirectory (item_path item));
             ReplicateFolder (item_path item)
               (replace (item_path item) "assets" "October_2025/assets")
               body]) /\
    count is_fetch Binary.run_log <= count is_file Binary.assets /\
    count is_invocation Binary.run_log <= count is_dir Binary.assets /\
    count is_create Binary.run_log <= count is_fetch Binary.run_log.
Proof.
  eapply (replicate_folder_raised_calls Binary.remote_list Binary.remote_get
            Demo.remote_put 1 "assets" "October_2025/assets" [] [] []);
    vm_compute; reflexivity.
Defined.

Lemma debug_repository_requests_witness :
  let log := snd (debug_repository Rooted.remote_list Demo.initial) in
  count is_request log = 6 /\ probed log = potential_paths.
Proof.
  apply (debug_repository_requests Rooted.remote_list Demo.initial
           Demo.initial 200%Z Rooted.root).
  reflexivity.
Defined.

Lemma debug_repository_listing_witness :
  let log := snd (debug_repository Rooted.remote_list Demo.initial) in
  shown log
  = map (fun item => (is_dir item, item_name item))
        (firstn 10 Rooted.root) /\
  announced log
  = (if (10 <? List.length Rooted.root)%nat
     then [List.length Rooted.root - 10] else []) /\
  List.length (shown log) + list_sum (announced log)
  = List.length Rooted.root.
Proof.
  apply (debug_repository_listing Rooted.remote_list Demo.initial
           Demo.initial Rooted.root).
  reflexivity.
Defined.

Lemma nested_mapping_keeps_relative_path_witness :
  replace ("reports" ++ "/2025") "reports" "October_2025/reports"
  = "October_2025/reports" ++ "/2025" /\
  replace (("reports" ++ "/2025") ++ "/oct.txt") ("reports" ++ "/2025")
    (replace ("reports" ++ "/2025") "reports" "October_2025/reports")
  = "October_2025/reports" ++ "/2025" ++ "/oct.txt".
Proof.
  apply (nested_mapping_keeps_relative_path "reports" "October_2025/reports"
           "/2025" "/oct.txt"); reflexivity.
Defined.
